(** * Message-store query layer of the WhatsApp MCP server

    A shallow embedding of [whatsapp-mcp-server/whatsapp.py] (and of the one
    clamped tool of [main_old.py]) together with the properties the
    specification states about it.

    Modelling conventions.
    - The SQLite store is three tables, each a list of rows in scan (rowid)
      order.  A [SELECT] is evaluated directly: [LEFT JOIN] as a nested scan,
      [WHERE] as [filter], [ORDER BY] as a stable insertion sort on the key,
      [LIMIT ? OFFSET ?] as [skipn] followed by [firstn].
    - A timestamp is an integer whose order is the chronological order, which
      is also the order the store compares the column by.  Parsing and
      printing of timestamps ([datetime.fromisoformat], [strftime]) belong to
      the Python library and are taken as an interface ([DateTime]).
    - Python integers are unbounded, hence [Z]; the 64-bit range of the
      parameters bound to a statement is not modelled.  Strings are [string]; one
      [ascii] stands for one character, and case folding touches A-Z only, as
      SQLite's [LOWER] and [LIKE] do.
    - Exceptions are an error monad; [try ... except sqlite3.Error] is
      [catch_sqlite].  Every operation opens its own connection to the same
      database, whose state is fixed during one call. *)

From Stdlib Require Import String Ascii List ZArith Bool Lia DecimalString.
From Stdlib Require Import Sorting.Sorted Sorting.Permutation.
Import ListNotations.

Local Open Scope string_scope.
Local Open Scope Z_scope.

(* ================================================================== *)
(** ** Python values and exceptions *)

Inductive exn : Type :=
| ValueError (msg : string)
| SqliteError.

Inductive outcome (A : Type) : Type :=
| Return (a : A)
| Raise (e : exn).

Arguments Return {A} a.
Arguments Raise {A} e.

Definition bind {A B : Type} (m : outcome A) (k : A -> outcome B) : outcome B :=
  match m with
  | Return a => k a
  | Raise e => Raise e
  end.

Notation "x <- m ;; k" := (bind m (fun x => k))
  (at level 61, m at next level, right associativity).

(** [try: body except sqlite3.Error: handler]. *)
Definition catch_sqlite {A : Type} (body handler : outcome A) : outcome A :=
  match body with
  | Raise SqliteError => handler
  | r => r
  end.

(** [for x in xs: ...] where the body may raise: results in order. *)
Fixpoint mapM {A B : Type} (f : A -> outcome B) (xs : list A) : outcome (list B) :=
  match xs with
  | [] => Return []
  | x :: xs' => y <- f x ;; ys <- mapM f xs' ;; Return (y :: ys)
  end.

(** Truthiness of a list, of a [str] and of an [Optional[str]]. *)
Definition nonempty {A : Type} (l : list A) : bool :=
  match l with
  | [] => false
  | _ :: _ => true
  end.

Definition truthy (s : string) : bool := negb (s =? "")%string.

Definition truthy_opt (o : option string) : bool :=
  match o with
  | Some s => truthy s
  | None => false
  end.

(* ================================================================== *)
(** ** Characters and SQLite's text functions *)

Definition is_upper (c : ascii) : bool :=
  ((65 <=? nat_of_ascii c) && (nat_of_ascii c <=? 90))%nat.

Definition is_lower (c : ascii) : bool :=
  ((97 <=? nat_of_ascii c) && (nat_of_ascii c <=? 122))%nat.

Definition lower_char (c : ascii) : ascii :=
  if is_upper c then ascii_of_nat (nat_of_ascii c + 32) else c.

Definition upper_char (c : ascii) : ascii :=
  if is_lower c then ascii_of_nat (nat_of_ascii c - 32) else c.

Fixpoint map_string (f : ascii -> ascii) (s : string) : string :=
  match s with
  | EmptyString => EmptyString
  | String c s' => String (f c) (map_string f s')
  end.

(** SQL [LOWER(x)] and Python [str.upper()]. *)
Definition LOWER (s : string) : string := map_string lower_char s.
Definition upper (s : string) : string := map_string upper_char s.

(** SQL [subject LIKE pattern] without [ESCAPE]: [%] matches any run of
    characters, [_] exactly one, every other character itself up to the case
    of A-Z. *)
Fixpoint after_any_run (rest : string -> bool) (subject : string) : bool :=
  rest subject
  || match subject with
     | EmptyString => false
     | String _ subject' => after_any_run rest subject'
     end.

Fixpoint LIKE_from (pattern subject : string) {struct pattern} : bool :=
  match pattern with
  | EmptyString =>
      match subject with EmptyString => true | String _ _ => false end
  | String p pattern' =>
      if (p =? "%")%char then after_any_run (LIKE_from pattern') subject
      else
        match subject with
        | EmptyString => false
        | String c subject' =>
            ((p =? "_")%char || (lower_char p =? lower_char c)%char)
            && LIKE_from pattern' subject'
        end
  end.

Definition LIKE (subject pattern : string) : bool := LIKE_from pattern subject.

(** [f"%{query}%"]. *)
Definition contains_pattern (query : string) : string := "%" ++ query ++ "%".

(** A SQL operand that may be [NULL]: a comparison with [NULL] is not true. *)
Definition LIKE_null (subject : option string) (pattern : string) : bool :=
  match subject with
  | Some s => LIKE s pattern
  | None => false
  end.

(* ================================================================== *)
(** ** The relational engine *)

Section Engine.
Context {A : Type}.

(** [ORDER BY]: [before x y] says [x] may stand before [y].  Rows with equal
    keys keep their scan order. *)
Fixpoint insert_by (before : A -> A -> bool) (x : A) (l : list A) : list A :=
  match l with
  | [] => [x]
  | y :: l' => if before x y then x :: l else y :: insert_by before x l'
  end.

Definition ORDER_BY (before : A -> A -> bool) (l : list A) : list A :=
  fold_right (insert_by before) [] l.

(** [LIMIT n]: a negative [n] means no bound. *)
Definition LIMIT (n : Z) (l : list A) : list A :=
  if n <? 0 then l else firstn (Z.to_nat n) l.

(** [LIMIT n OFFSET k]: a negative [k] counts as zero. *)
Definition LIMIT_OFFSET (n k : Z) (l : list A) : list A :=
  LIMIT n (skipn (Z.to_nat k) l).

(** [cursor.fetchone()]. *)
Definition fetchone (l : list A) : option A := hd_error l.
End Engine.

(** Ordering of a nullable column: [NULL] sorts before every value. *)
Definition null_le {K : Type} (le : K -> K -> bool) (a b : option K) : bool :=
  match a, b with
  | None, _ => true
  | Some _, None => false
  | Some x, Some y => le x y
  end.

(* ================================================================== *)
(** ** Data model *)

(** The part of Python's [datetime] the module relies on. *)
Class DateTime : Type := {
  (** [datetime.fromisoformat(s)]; [None] stands for [ValueError]. *)
  fromisoformat : string -> option Z;
  (** [t.strftime("%Y-%m-%d %H:%M:%S")]. *)
  strftime : Z -> string
}.

Module Message.
Record t : Type := mk {
  timestamp : Z;
  sender : string;
  content : string;
  is_from_me : bool;
  chat_jid : string;
  id : string;
  chat_name : option string;
  media_type : option string
}.
End Message.

Module Chat.
Record t : Type := mk {
  jid : string;
  name : option string;
  last_message_time : option Z;
  last_message : option string;
  last_sender : option string;
  last_is_from_me : option bool
}.
End Chat.

Module Contact.
Record t : Type := mk {
  phone_number : string;
  name : option string;
  jid : string
}.
End Contact.

Module MessageContext.
Record t : Type := mk {
  message : Message.t;
  before : list Message.t;
  after : list Message.t
}.
End MessageContext.

(** A row of the [messages] table; [chat_name] comes from the join. *)
Module MessageRow.
Record t : Type := mk {
  timestamp : Z;
  sender : string;
  content : string;
  is_from_me : bool;
  chat_jid : string;
  id : string;
  media_type : option string
}.
End MessageRow.

(** The persisted store.  Rows of [chats] and [contacts] carry the fields of
    the [Chat] and [Contact] records. *)
Record Store : Type := {
  messages : list MessageRow.t;
  chats : list Chat.t;
  contacts : list Contact.t
}.

(** State of the database file during one call. *)
Inductive database : Type :=
| Unavailable              (* [sqlite3.connect] raises *)
| Unreadable               (* connects; every statement raises *)
| Online (s : Store).

Definition connection : Type := option Store.

(** [sqlite3.connect(MESSAGES_DB_PATH)]. *)
Definition connect (db : database) : outcome connection :=
  match db with
  | Unavailable => Raise SqliteError
  | Unreadable => Return None
  | Online s => Return (Some s)
  end.

(** [cursor.execute(...)] reaches the tables or raises [sqlite3.Error]. *)
Definition execute (conn : connection) : outcome Store :=
  match conn with
  | Some s => Return s
  | None => Raise SqliteError
  end.

(** [FROM messages LEFT JOIN chats ON messages.chat_jid = chats.jid], with
    the eight selected columns mapped to a [Message]. *)
Definition join_row (r : MessageRow.t) (chat_name : option string) : Message.t :=
  Message.mk (MessageRow.timestamp r) (MessageRow.sender r)
    (MessageRow.content r) (MessageRow.is_from_me r) (MessageRow.chat_jid r)
    (MessageRow.id r) chat_name (MessageRow.media_type r).

Definition left_join_chats (cs : list Chat.t) (r : MessageRow.t) : list Message.t :=
  match filter (fun c => (MessageRow.chat_jid r =? Chat.jid c)%string) cs with
  | [] => [join_row r None]
  | matched => map (fun c => join_row r (Chat.name c)) matched
  end.

Definition messages_with_chat_name (s : Store) : list Message.t :=
  flat_map (left_join_chats (chats s)) (messages s).

(** [ORDER BY messages.timestamp DESC] and [ASC]. *)
Definition timestamp_desc (x y : Message.t) : bool :=
  Message.timestamp y <=? Message.timestamp x.

Definition timestamp_asc (x y : Message.t) : bool :=
  Message.timestamp x <=? Message.timestamp y.

(* ================================================================== *)
(** ** Presentation *)

Definition newline : string := String (ascii_of_nat 10) EmptyString.

Section Operations.
Context {DT : DateTime}.

Definition get_sender_name (db : database) (sender_jid : string) : string :=
  match (conn <- connect db ;; execute conn) with
  | Return s =>
      match
        fetchone
          (map Contact.name
             (filter
                (fun c => (Contact.jid c =? sender_jid)%string
                          || (Contact.phone_number c =? sender_jid)%string)
                (contacts s)))
      with
      | Some (Some name) => if truthy name then name else sender_jid
      | _ => sender_jid
      end
  | Raise _ => sender_jid
  end.

Definition format_message (db : database) (message : Message.t)
    (show_chat_info : bool) : string :=
  let sender_name := get_sender_name db (Message.sender message) in
  let time_str := strftime (Message.timestamp message) in
  let chat_part :=
    match Message.chat_name message with
    | Some chat_name =>
        if show_chat_info && truthy chat_name
        then ["[" ++ chat_name ++ "]"] else []
    | None => []
    end in
  let who_part :=
    if Message.is_from_me message
    then ["You (" ++ time_str ++ ")"]
    else [sender_name ++ " (" ++ time_str ++ ")"] in
  let media_part :=
    match Message.media_type message with
    | Some media_type =>
        if truthy media_type then ["[" ++ upper media_type ++ "]"] else []
    | None => []
    end in
  let msg_parts :=
    (chat_part ++ who_part ++ media_part
       ++ [(": " ++ Message.content message)%string])%list in
  String.concat " " msg_parts ++ newline.

Definition format_messages_list (db : database) (messages : list Message.t)
    (show_chat_info : bool) : string :=
  match messages with
  | [] => "No messages to display."
  | _ =>
      fold_left
        (fun output message => output ++ format_message db message show_chat_info)
        messages ""
  end.

(* ================================================================ *)
(** ** Context window assembler *)

Definition not_found_message (message_id : string) : string :=
  "Message with ID " ++ message_id ++ " not found".

Definition get_message_context (db : database) (message_id : string)
    (before after : Z) : outcome MessageContext.t :=
  catch_sqlite
    (conn <- connect db ;;
     s <- execute conn ;;
     (* Get the target message *)
     match
       fetchone
         (filter (fun m => (Message.id m =? message_id)%string)
            (messages_with_chat_name s))
     with
     | None => Raise (ValueError (not_found_message message_id))
     | Some target_message =>
         (* Get messages before *)
         let fetched_before :=
           LIMIT before
             (ORDER_BY timestamp_desc
                (filter
                   (fun m =>
                      (Message.chat_jid m =? Message.chat_jid target_message)%string
                      && (Message.timestamp m <? Message.timestamp target_message))
                   (messages_with_chat_name s))) in
         let before_messages := rev fetched_before in
         (* Get messages after *)
         let after_messages :=
           LIMIT after
             (ORDER_BY timestamp_asc
                (filter
                   (fun m =>
                      (Message.chat_jid m =? Message.chat_jid target_message)%string
                      && (Message.timestamp target_message <? Message.timestamp m))
                   (messages_with_chat_name s))) in
         Return (MessageContext.mk target_message before_messages after_messages)
     end)
    (Raise SqliteError).

(* ================================================================ *)
(** ** Filter builder and message listing *)

(** One entry of [where_clauses], with its bound parameter. *)
Inductive clause : Type :=
| timestamp_gt (bound : Z)          (* messages.timestamp > ? *)
| timestamp_lt (bound : Z)          (* messages.timestamp < ? *)
| sender_eq (sender : string)       (* messages.sender = ? *)
| chat_jid_eq (chat_jid : string)   (* messages.chat_jid = ? *)
| content_like (pattern : string).  (* LOWER(messages.content) LIKE LOWER(?) *)

Definition holds (m : Message.t) (c : clause) : bool :=
  match c with
  | timestamp_gt bound => bound <? Message.timestamp m
  | timestamp_lt bound => Message.timestamp m <? bound
  | sender_eq sender => (Message.sender m =? sender)%string
  | chat_jid_eq chat_jid => (Message.chat_jid m =? chat_jid)%string
  | content_like pattern => LIKE (LOWER (Message.content m)) (LOWER pattern)
  end.

(** ["WHERE " + " AND ".join(where_clauses)]; no clause, no [WHERE]. *)
Definition WHERE (where_clauses : list clause) (m : Message.t) : bool :=
  forallb (holds m) where_clauses.

Definition invalid_date_message (field value : string) : string :=
  "Invalid date format for '" ++ field ++ "': " ++ value
    ++ ". Please use ISO-8601 format.".

(** [if bound: try: bound = datetime.fromisoformat(bound) except ValueError:
    raise ValueError(...)], followed by the append of the clause. *)
Definition time_clause (field : string) (mk_clause : Z -> clause)
    (bound : option string) : outcome (list clause) :=
  match bound with
  | Some value =>
      if truthy value then
        match fromisoformat value with
        | Some t => Return [mk_clause t]
        | None => Raise (ValueError (invalid_date_message field value))
        end
      else Return []
  | None => Return []
  end.

Definition optional_clause (mk_clause : string -> clause)
    (value : option string) : list clause :=
  match value with
  | Some v => if truthy v then [mk_clause v] else []
  | None => []
  end.

(** The [try] body of [list_messages] up to the mapped [result] list. *)
Definition list_messages_result (db : database)
    (after before sender_phone_number chat_jid query : option string)
    (limit page : Z) : outcome (list Message.t) :=
  conn <- connect db ;;
  after_clause <- time_clause "after" timestamp_gt after ;;
  before_clause <- time_clause "before" timestamp_lt before ;;
  let where_clauses :=
    (after_clause ++ before_clause
       ++ optional_clause sender_eq sender_phone_number
       ++ optional_clause chat_jid_eq chat_jid
       ++ optional_clause (fun q => content_like (contains_pattern q)) query)%list in
  (* Add pagination *)
  let offset := page * limit in
  s <- execute conn ;;
  Return
    (LIMIT_OFFSET limit offset
       (ORDER_BY timestamp_desc
          (filter (WHERE where_clauses) (messages_with_chat_name s)))).

(** The loop [for msg in result] that builds [messages_with_context]. *)
Definition window (context : MessageContext.t) : list Message.t :=
  (MessageContext.before context
     ++ [MessageContext.message context]
     ++ MessageContext.after context)%list.

Definition add_context (db : database) (context_before context_after : Z)
    (result : list Message.t) : outcome (list Message.t) :=
  contexts <-
    mapM (fun msg => get_message_context db (Message.id msg)
                       context_before context_after) result ;;
  Return (flat_map window contexts).

(** What [list_messages] hands back: the formatted text, or the empty list
    of the [except sqlite3.Error] branch. *)
Inductive listing : Type :=
| Text (output : string)
| EmptyList.

(** The sequence of messages [list_messages] passes to the formatter. *)
Definition list_messages_shown (db : database)
    (after before sender_phone_number chat_jid query : option string)
    (limit page : Z) (include_context : bool)
    (context_before context_after : Z) : outcome (list Message.t) :=
  result <- list_messages_result db after before sender_phone_number
              chat_jid query limit page ;;
  if include_context && nonempty result
  then add_context db context_before context_after result
  else Return result.

Definition list_messages (db : database)
    (after before sender_phone_number chat_jid query : option string)
    (limit page : Z) (include_context : bool)
    (context_before context_after : Z) : outcome listing :=
  catch_sqlite
    (result <- list_messages_result db after before sender_phone_number
                 chat_jid query limit page ;;
     if include_context && nonempty result
     then
       (* Add context for each message *)
       messages_with_context <-
         add_context db context_before context_after result ;;
       Return (Text (format_messages_list db messages_with_context true))
     else
       (* Format and display messages without context *)
       Return (Text (format_messages_list db result true)))
    (Return EmptyList).

(* ================================================================ *)
(** ** Directory queries *)

(** [ORDER BY chats.last_message_time DESC] and [ORDER BY chats.name ASC];
    text compares by character code. *)
Definition last_message_time_desc (x y : Chat.t) : bool :=
  null_le Z.leb (Chat.last_message_time y) (Chat.last_message_time x).

Definition chat_name_asc (x y : Chat.t) : bool :=
  null_le String.leb (Chat.name x) (Chat.name y).

(** The two [SELECT] lists of [list_chats]. *)
Definition select_chat (include_last_message : bool) (c : Chat.t) : Chat.t :=
  if include_last_message then c
  else Chat.mk (Chat.jid c) (Chat.name c) (Chat.last_message_time c)
         None None None.

(** [LOWER(chats.name) LIKE LOWER(?)] when a query is given. *)
Definition chat_matches (query : option string) (c : Chat.t) : bool :=
  match query with
  | Some q =>
      if truthy q
      then LIKE_null (option_map LOWER (Chat.name c)) (LOWER (contains_pattern q))
      else true
  | None => true
  end.

(** The sorting added for [sort_by]; any other value adds nothing. *)
Definition chat_order (sort_by : string) (l : list Chat.t) : list Chat.t :=
  if (sort_by =? "last_active")%string then ORDER_BY last_message_time_desc l
  else if (sort_by =? "name")%string then ORDER_BY chat_name_asc l
  else l.

Definition list_chats (db : database) (query : option string)
    (limit page : Z) (include_last_message : bool) (sort_by : string)
    : outcome (list Chat.t) :=
  catch_sqlite
    (conn <- connect db ;;
     (* Add pagination *)
     let offset := page * limit in
     s <- execute conn ;;
     Return
       (map (select_chat include_last_message)
          (LIMIT_OFFSET limit offset
             (chat_order sort_by (filter (chat_matches query) (chats s))))))
    (Return []).

Definition contact_name_asc (x y : Contact.t) : bool :=
  null_le String.leb (Contact.name x) (Contact.name y).

(** [WHERE LOWER(name) LIKE LOWER(?) OR phone_number LIKE ?]. *)
Definition contact_matches (query : string) (c : Contact.t) : bool :=
  LIKE_null (option_map LOWER (Contact.name c)) (LOWER (contains_pattern query))
  || LIKE (Contact.phone_number c) (contains_pattern query).

Definition search_contacts (db : database) (query : string)
    : outcome (list Contact.t) :=
  catch_sqlite
    (conn <- connect db ;;
     s <- execute conn ;;
     Return
       (LIMIT 50
          (ORDER_BY contact_name_asc
             (filter (contact_matches query) (contacts s)))))
    (Return []).

(* ================================================================ *)
(** ** The older server ([main_old.py]) *)

Definition row_timestamp_desc (x y : MessageRow.t) : bool :=
  MessageRow.timestamp y <=? MessageRow.timestamp x.

(** [WhatsAppBridge.get_recent_messages]: any failure yields [[]]. *)
Definition get_recent_messages (db : database) (limit : Z)
    : list MessageRow.t :=
  match db with
  | Online s => LIMIT limit (ORDER_BY row_timestamp_desc (messages s))
  | _ => []
  end.

(** The tool [get_recent_whatsapp_messages]. *)
Definition get_recent_whatsapp_messages (db : database) (limit : Z)
    : list MessageRow.t :=
  let limit := Z.min (Z.max 1 limit) 100 in
  get_recent_messages db limit.

(* ================================================================ *)
(** ** Auxiliary notions used to state the properties *)

(** The lines of the messages of a list, in order: the text of a
    non-empty list.  *)
Definition lines (db : database) (l : list Message.t) : string :=
  String.concat "" (map (fun m => format_message db m true) l).

(** The selection on a reachable store, once both time bounds are accepted. *)
Definition selection (s : Store) (after_clause before_clause : list clause)
    (sender_phone_number chat_jid query : option string) : list Message.t :=
  ORDER_BY timestamp_desc
    (filter
       (WHERE
          (after_clause ++ before_clause
             ++ optional_clause sender_eq sender_phone_number
             ++ optional_clause chat_jid_eq chat_jid
             ++ optional_clause (fun q => content_like (contains_pattern q)) query))
       (messages_with_chat_name s)).

(** The window [list_messages] inserts for one selected message. *)
Definition window_of (db : database) (context_before context_after : Z)
    (msg : Message.t) : list Message.t :=
  match get_message_context db (Message.id msg) context_before context_after with
  | Return context => window context
  | Raise _ => []
  end.

(** The messages formatted for a page of selected rows. *)
Definition shown_of (db : database) (include_context : bool)
    (context_before context_after : Z) (rows : list Message.t) : list Message.t :=
  if include_context
  then flat_map (window_of db context_before context_after) rows
  else rows.

End Operations.

(** Page indices [0 .. k]. *)
Definition pages (k : nat) : list Z := map Z.of_nat (seq 0 (S k)).

(* ================================================================== *)
(** ** An instance of the [DateTime] interface

    Naive timestamps written [YYYY-MM-DD] or [YYYY-MM-DD HH:MM:SS] (any one
    character separates date and time), numbered so that the integer order is
    the calendar order. *)

Module Calendar.

Definition digit (c : ascii) : option Z :=
  let n := Z.of_nat (nat_of_ascii c) in
  if (48 <=? n) && (n <=? 57) then Some (n - 48) else None.

Fixpoint number (acc : Z) (cs : list ascii) : option Z :=
  match cs with
  | [] => Some acc
  | c :: cs' =>
      match digit c with
      | Some d => number (10 * acc + d) cs'
      | None => None
      end
  end.

Definition is_leap (y : Z) : bool :=
  ((y mod 4 =? 0) && negb (y mod 100 =? 0)) || (y mod 400 =? 0).

Definition days_in_month (y m : Z) : Z :=
  if m =? 2 then (if is_leap y then 29 else 28)
  else if (m =? 4) || (m =? 6) || (m =? 9) || (m =? 11) then 30
  else 31.

Definition encode (y m d hh mm ss : Z) : Z :=
  ((((y * 12 + (m - 1)) * 31 + (d - 1)) * 24 + hh) * 60 + mm) * 60 + ss.

Definition make (y m d hh mm ss : Z) : option Z :=
  if (1 <=? y) && (1 <=? m) && (m <=? 12) && (1 <=? d)
     && (d <=? days_in_month y m) && (hh <? 24) && (mm <? 60) && (ss <? 60)
  then Some (encode y m d hh mm ss) else None.

Definition parse_date (cs : list ascii) : option (Z * Z * Z) :=
  match cs with
  | [y1; y2; y3; y4; s1; m1; m2; s2; d1; d2] =>
      if (s1 =? "-")%char && (s2 =? "-")%char then
        match number 0 [y1; y2; y3; y4], number 0 [m1; m2], number 0 [d1; d2] with
        | Some y, Some m, Some d => Some (y, m, d)
        | _, _, _ => None
        end
      else None
  | _ => None
  end.

Definition parse_time (cs : list ascii) : option (Z * Z * Z) :=
  match cs with
  | [h1; h2; s1; m1; m2; s2; c1; c2] =>
      if (s1 =? ":")%char && (s2 =? ":")%char then
        match number 0 [h1; h2], number 0 [m1; m2], number 0 [c1; c2] with
        | Some hh, Some mm, Some ss => Some (hh, mm, ss)
        | _, _, _ => None
        end
      else None
  | _ => None
  end.

Definition parse (s : string) : option Z :=
  let cs := list_ascii_of_string s in
  match parse_date (firstn 10 cs), skipn 10 cs with
  | Some (y, m, d), [] => make y m d 0 0 0
  | Some (y, m, d), _ :: rest =>
      match parse_time rest with
      | Some (hh, mm, ss) => make y m d hh mm ss
      | None => None
      end
  | None, _ => None
  end.

Definition digit_char (d : Z) : ascii := ascii_of_nat (Z.to_nat (48 + d mod 10)).

Definition two (n : Z) : string :=
  String (digit_char (n / 10)) (String (digit_char n) EmptyString).

Definition four (n : Z) : string := (two (n / 100) ++ two (n mod 100))%string.

Definition print (t : Z) : string :=
  let ss := t mod 60 in
  let mm := (t / 60) mod 60 in
  let hh := (t / 3600) mod 24 in
  let days := t / 86400 in
  let d := days mod 31 + 1 in
  let m := (days / 31) mod 12 + 1 in
  let y := days / 372 in
  (four y ++ "-" ++ two m ++ "-" ++ two d ++ " "
     ++ two hh ++ ":" ++ two mm ++ ":" ++ two ss)%string.

#[export] Instance naive : DateTime := {
  fromisoformat := parse;
  strftime := print
}.

End Calendar.

(* ================================================================== *)
(** ** Vocabulary of the specification *)

(** Messages of the target's conversation that lie before or after it. *)
Definition earlier_in_chat (target m : Message.t) : bool :=
  (Message.chat_jid m =? Message.chat_jid target)%string
  && (Message.timestamp m <? Message.timestamp target).

Definition later_in_chat (target m : Message.t) : bool :=
  (Message.chat_jid m =? Message.chat_jid target)%string
  && (Message.timestamp target <? Message.timestamp m).

(** [query] occurs in [text]; the same, ignoring the case of A-Z. *)
Fixpoint contains (query text : string) : bool :=
  prefix query text
  || match text with
     | EmptyString => false
     | String _ text' => contains query text'
     end.

Definition contains_ignoring_case (query text : string) : bool :=
  contains (LOWER query) (LOWER text).

(** The characters [LIKE] reads as wildcards. *)
Fixpoint has_wildcard (query : string) : bool :=
  match query with
  | EmptyString => false
  | String c query' =>
      (c =? "%")%char || (c =? "_")%char || has_wildcard query'
  end.

(** A contact whose name or phone number contains the query. *)
Definition name_or_phone_contains (query : string) (c : Contact.t) : bool :=
  match Contact.name c with
  | Some name => contains_ignoring_case query name
  | None => false
  end
  || contains_ignoring_case query (Contact.phone_number c).

Definition by_name : Contact.t -> Contact.t -> Prop :=
  fun x y => null_le String.leb (Contact.name x) (Contact.name y) = true.


(* ================================================================== *)
(** ** A small store to run the operations on *)

Module Sample.
Import Calendar.

Definition t1 : Z := 65058372000.   (* 2024-03-01 10:00:00 *)
Definition t2 : Z := 65058372060.   (* 2024-03-01 10:01:00 *)
Definition t3 : Z := 65058372120.   (* 2024-03-01 10:02:00 *)

Definition row (timestamp : Z) (sender content chat_jid id : string) :=
  MessageRow.mk timestamp sender content false chat_jid id None.

Definition family : Chat.t :=
  Chat.mk "120@g.us" (Some "Family") (Some t3) (Some "see you") (Some "555")
    (Some false).

Definition ana : Contact.t := Contact.mk "555" (Some "Ana Garcia") "555@s.whatsapp.net".
Definition bob : Contact.t := Contact.mk "777" (Some "Bob") "777@s.whatsapp.net".
Definition shop : Contact.t := Contact.mk "1800FLOWERS" None "1800@s.whatsapp.net".

Definition store : Store := {|
  messages := [ row t1 "555" "hello" "120@g.us" "A1";
                row t2 "777" "lunch?" "120@g.us" "A2";
                row t3 "555" "see you" "120@g.us" "A3" ];
  chats := [ family ];
  contacts := [ ana; bob; shop ]
|}.

Definition msg (timestamp : Z) (sender content id : string) : Message.t :=
  Message.mk timestamp sender content false "120@g.us" id (Some "Family") None.

Definition m1 : Message.t := msg t1 "555" "hello" "A1".
Definition m2 : Message.t := msg t2 "777" "lunch?" "A2".
Definition m3 : Message.t := msg t3 "555" "see you" "A3".

(** A store with 101 messages, 101 chats and 60 contacts. *)
Definition numbered (n : nat) : string := NilEmpty.string_of_uint (Nat.to_uint n).

Definition crowd : Store := {|
  messages :=
    map (fun n => row (t1 + Z.of_nat n) "555" "ping" "120@g.us"
                    ("B" ++ numbered n))
      (seq 0 101);
  chats :=
    map (fun n => Chat.mk (numbered n ++ "@s.whatsapp.net")
                    (Some ("Chat " ++ numbered n)) None None None None)
      (seq 0 101);
  contacts :=
    map (fun n => Contact.mk ("555" ++ numbered n) (Some "Ana")
                    (numbered n ++ "@s.whatsapp.net"))
      (seq 0 60)
|}.
End Sample.

(** Number of rows a call handed back, if it returned. *)
Definition rows_returned {A : Type} (o : outcome (list A)) : option nat :=
  match o with
  | Return l => Some (length l)
  | Raise _ => None
  end.

(* ================================================================== *)
(** ** Further operations of [whatsapp.py] *)

(** [s.endswith(suffix)]: some tail of [s] is [suffix]. *)
Fixpoint endswith (s suffix : string) : bool :=
  (s =? suffix)%string
  || match s with
     | EmptyString => false
     | String _ s' => endswith s' suffix
     end.

(** The property [Chat.is_group]. *)
Definition is_group (c : Chat.t) : bool := endswith (Chat.jid c) "@g.us".

(** [SELECT DISTINCT]: a row is kept at its first occurrence. *)
Fixpoint DISTINCT {A : Type} (eqb : A -> A -> bool) (l : list A) : list A :=
  match l with
  | [] => []
  | x :: l' => x :: filter (fun y => negb (eqb x y)) (DISTINCT eqb l')
  end.

(** Equality of nullable columns and of whole [chats] rows, as [DISTINCT]
    compares them ([NULL] equals [NULL]). *)
Definition option_eqb {A : Type} (eqb : A -> A -> bool) (x y : option A) : bool :=
  match x, y with
  | Some a, Some b => eqb a b
  | None, None => true
  | _, _ => false
  end.

Definition chat_eqb (x y : Chat.t) : bool :=
  (Chat.jid x =? Chat.jid y)%string
  && option_eqb String.eqb (Chat.name x) (Chat.name y)
  && option_eqb Z.eqb (Chat.last_message_time x) (Chat.last_message_time y)
  && option_eqb String.eqb (Chat.last_message x) (Chat.last_message y)
  && option_eqb String.eqb (Chat.last_sender x) (Chat.last_sender y)
  && option_eqb Bool.eqb (Chat.last_is_from_me x) (Chat.last_is_from_me y).

(** [FROM chats JOIN messages ON chats.jid = messages.chat_jid
    WHERE messages.sender = ? OR chats.jid = ?], one row per pair. *)
Definition chats_join_messages (s : Store) (jid : string) : list Chat.t :=
  flat_map
    (fun c =>
       map (fun _ => c)
         (filter
            (fun m =>
               (Chat.jid c =? MessageRow.chat_jid m)%string
               && ((MessageRow.sender m =? jid)%string
                   || (Chat.jid c =? jid)%string))
            (messages s)))
    (chats s).

Definition get_contact_chats (db : database) (jid : string) (limit page : Z)
    : outcome (list Chat.t) :=
  catch_sqlite
    (conn <- connect db ;;
     let offset := page * limit in
     s <- execute conn ;;
     Return
       (LIMIT_OFFSET limit offset
          (ORDER_BY last_message_time_desc
             (DISTINCT chat_eqb (chats_join_messages s jid)))))
    (Return []).

Definition get_chat (db : database) (chat_jid : string)
    (include_last_message : bool) : outcome (option Chat.t) :=
  catch_sqlite
    (conn <- connect db ;;
     s <- execute conn ;;
     let chat_data :=
       fetchone
         (map (select_chat include_last_message)
            (filter (fun c => (Chat.jid c =? chat_jid)%string) (chats s))) in
     match chat_data with
     | None => Return None
     | Some chat => Return (Some chat)
     end)
    (Return None).

(** The pattern of one-to-one conversations. *)
Definition direct_chat_pattern : string := "%@s.whatsapp.net".

Definition get_direct_chat_by_contact (db : database)
    (sender_phone_number : string) : outcome (option Chat.t) :=
  catch_sqlite
    (conn <- connect db ;;
     s <- execute conn ;;
     (* Find the chat JID for this contact *)
     let jid_result :=
       fetchone
         (LIMIT 1
            (DISTINCT String.eqb
               (map MessageRow.chat_jid
                  (filter
                     (fun m =>
                        (MessageRow.sender m =? sender_phone_number)%string
                        && LIKE (MessageRow.chat_jid m) direct_chat_pattern)
                     (messages s))))) in
     match jid_result with
     | None => Return None
     | Some chat_jid =>
         (* Get chat metadata *)
         match
           fetchone (filter (fun c => (Chat.jid c =? chat_jid)%string) (chats s))
         with
         | None => Return None
         | Some chat => Return (Some chat)
         end
     end)
    (Return None).

Section LastInteraction.
Context {DT : DateTime}.

(** A message involves [jid] as its sender or as its conversation. *)
Definition involves (jid : string) (m : Message.t) : bool :=
  (Message.sender m =? jid)%string || (Message.chat_jid m =? jid)%string.

(** The [Message] built from the five selected columns: [chat_jid] is the
    argument, [id] is empty and there is no [media_type]. *)
Definition last_interaction_message (jid : string) (msg_data : Message.t)
    : Message.t :=
  Message.mk (Message.timestamp msg_data) (Message.sender msg_data)
    (Message.content msg_data) (Message.is_from_me msg_data) jid ""
    (Message.chat_name msg_data) None.

(** [error_text] is the text of the [sqlite3.Error], should one be raised. *)
Definition get_last_interaction (db : database) (error_text : string)
    (jid : string) : string :=
  match (conn <- connect db ;; execute conn) with
  | Return s =>
      match
        fetchone
          (LIMIT 1
             (ORDER_BY timestamp_desc
                (filter (involves jid) (messages_with_chat_name s))))
      with
      | None => "No messages found for " ++ jid
      | Some msg_data =>
          format_message db (last_interaction_message jid msg_data) true
      end
  | Raise _ => "Error getting last interaction: " ++ error_text
  end.
End LastInteraction.

(** A store with a group, two one-to-one conversations and a chat without
    messages. *)
Module Directory.
Definition t1 : Z := 65058372000.   (* 2024-03-01 10:00:00 *)
Definition t2 : Z := 65058372060.   (* 2024-03-01 10:01:00 *)
Definition t3 : Z := 65058372120.   (* 2024-03-01 10:02:00 *)
Definition t4 : Z := 65058372180.   (* 2024-03-01 10:03:00 *)

Definition family : Chat.t :=
  Chat.mk "120@g.us" (Some "Family") (Some t3) (Some "see you") (Some "555")
    (Some false).
Definition ana_chat : Chat.t :=
  Chat.mk "555@s.whatsapp.net" (Some "Ana Garcia") (Some t4) (Some "photo")
    (Some "555") (Some false).
Definition bob_chat : Chat.t :=
  Chat.mk "777@s.whatsapp.net" (Some "Bob") (Some t2) (Some "ok") (Some "me")
    (Some true).
Definition silent_chat : Chat.t :=
  Chat.mk "999@s.whatsapp.net" None None None None None.

Definition store : Store := {|
  messages :=
    [ MessageRow.mk t1 "555" "hello" false "120@g.us" "D1" None;
      MessageRow.mk t2 "me" "ok" true "777@s.whatsapp.net" "D2" None;
      MessageRow.mk t3 "555" "see you" false "120@g.us" "D3" None;
      MessageRow.mk t4 "555" "photo" false "555@s.whatsapp.net" "D4"
        (Some "image") ];
  chats := [ family; ana_chat; bob_chat; silent_chat ];
  contacts :=
    [ Contact.mk "555" (Some "Ana Garcia") "555@s.whatsapp.net";
      Contact.mk "777" (Some "") "777@s.whatsapp.net" ]
|}.
End Directory.

(* ================================================================== *)
(** ** Outbound calls to the bridge ([send_message], [send_file],
    [send_audio_message], [download_media])

    The exchange with the HTTP endpoint is described by what the handlers of
    the source can tell apart: the exception [requests.post] or
    [response.json()] raised, by the [except] clause that catches it, or the
    response.  Every operation hands back the requests it posted together
    with its result. *)

(** A Python value taken from the decoded reply and handed to the caller. *)
Inductive pyvalue : Type :=
| PyNone
| PyBool (b : bool)
| PyStr (s : string)
| PyOther (is_true : bool).      (* a number, list or object, with its truth *)

Definition py_truthy (v : pyvalue) : bool :=
  match v with
  | PyNone => false
  | PyBool b => b
  | PyStr s => truthy s
  | PyOther is_true => is_true
  end.

(** The value of [response.json()]. *)
Inductive decoded : Type :=
| Dict (fields : string -> option pyvalue)
| NoDict (attribute_error : string).   (* [.get] raises [AttributeError] *)

(** What [response.json()] does. *)
Inductive json_outcome : Type :=
| Decoded (result : decoded)
| JsonRequestException (e : string)  (* caught by [except requests.RequestException] *)
| JsonDecodeError                    (* caught by [except json.JSONDecodeError] *)
| JsonUnexpected (e : string).       (* caught by [except Exception] *)

(** What [requests.post(url, json=payload)] does. *)
Inductive post_outcome : Type :=
| RequestException (e : string)
| PostUnexpected (e : string)
| Response (status_code : Z) (text : string) (json : json_outcome).

Record request : Type := {
  url : string;
  payload : list (string * string)
}.

Definition WHATSAPP_API_BASE_URL : string := "http://localhost:8080/api".

(** [f"{n}"] for an [int]. *)
Definition str_of_int (n : Z) : string := NilZero.string_of_int (Z.to_int n).

(** [result.get(key, default)]. *)
Definition dict_get (fields : string -> option pyvalue) (key : string)
    (default : pyvalue) : pyvalue :=
  match fields key with
  | Some v => v
  | None => default
  end.

Section Bridge.
(** The endpoint and the network, the file system, and [audio]'s converter
    ([inr e] when it raises with text [e]). *)
Variable post : request -> post_outcome.
Variable isfile : string -> bool.
Variable convert_to_opus_ogg_temp : string -> string + string.

(** The part shared, word for word, by the three senders: the request, the
    reading of the reply and the three [except] clauses. *)
Definition post_and_report (payload : list (string * string))
    : list request * (pyvalue * pyvalue) :=
  let sent := {| url := WHATSAPP_API_BASE_URL ++ "/send"; payload := payload |} in
  ([sent],
   match post sent with
   | RequestException e => (PyBool false, PyStr ("Request error: " ++ e))
   | PostUnexpected e => (PyBool false, PyStr ("Unexpected error: " ++ e))
   | Response status_code text json =>
       if status_code =? 200 then
         match json with
         | Decoded (Dict fields) =>
             (dict_get fields "success" (PyBool false),
              dict_get fields "message" (PyStr "Unknown response"))
         | Decoded (NoDict e) => (PyBool false, PyStr ("Unexpected error: " ++ e))
         | JsonRequestException e => (PyBool false, PyStr ("Request error: " ++ e))
         | JsonDecodeError =>
             (PyBool false, PyStr ("Error parsing response: " ++ text))
         | JsonUnexpected e => (PyBool false, PyStr ("Unexpected error: " ++ e))
         end
       else
         (PyBool false,
          PyStr ("Error: HTTP " ++ str_of_int status_code ++ " - " ++ text))
   end).

Definition send_message (recipient message : string)
    : list request * (pyvalue * pyvalue) :=
  if negb (truthy recipient)
  then ([], (PyBool false, PyStr "Recipient must be provided"))
  else post_and_report [("recipient", recipient); ("message", message)].

Definition send_file (recipient media_path : string)
    : list request * (pyvalue * pyvalue) :=
  if negb (truthy recipient)
  then ([], (PyBool false, PyStr "Recipient must be provided"))
  else if negb (truthy media_path)
  then ([], (PyBool false, PyStr "Media path must be provided"))
  else if negb (isfile media_path)
  then ([], (PyBool false, PyStr ("Media file not found: " ++ media_path)))
  else post_and_report [("recipient", recipient); ("media_path", media_path)].

Definition send_audio_message (recipient media_path : string)
    : list request * (pyvalue * pyvalue) :=
  if negb (truthy recipient)
  then ([], (PyBool false, PyStr "Recipient must be provided"))
  else if negb (truthy media_path)
  then ([], (PyBool false, PyStr "Media path must be provided"))
  else if negb (isfile media_path)
  then ([], (PyBool false, PyStr ("Media file not found: " ++ media_path)))
  else if negb (endswith media_path ".ogg")
  then
    match convert_to_opus_ogg_temp media_path with
    | inl converted =>
        post_and_report [("recipient", recipient); ("media_path", converted)]
    | inr e =>
        ([],
         (PyBool false,
          PyStr ("Error converting file to opus ogg. You likely need to install ffmpeg: "
                 ++ e)))
    end
  else post_and_report [("recipient", recipient); ("media_path", media_path)].

Definition download_media (message_id chat_jid : string)
    : list request * pyvalue :=
  let sent :=
    {| url := WHATSAPP_API_BASE_URL ++ "/download";
       payload := [("message_id", message_id); ("chat_jid", chat_jid)] |} in
  ([sent],
   match post sent with
   | Response status_code text (Decoded (Dict fields)) =>
       if status_code =? 200 then
         if py_truthy (dict_get fields "success" (PyBool false))
         then dict_get fields "path" PyNone
         else PyNone
       else PyNone
   | _ => PyNone
   end).
End Bridge.

(** A bridge that accepts every request, and one that is down. *)
Module Bridges.
Definition accepting (r : request) : post_outcome :=
  Response 200 "{}"
    (Decoded
       (Dict (fun key =>
                if (key =? "success")%string then Some (PyBool true)
                else if (key =? "message")%string then Some (PyStr "sent")
                else if (key =? "path")%string then Some (PyStr "/tmp/photo.jpg")
                else None))).

Definition down (r : request) : post_outcome :=
  RequestException "connection refused".

Definition no_file (path : string) : bool := false.
Definition any_file (path : string) : bool := true.
Definition no_ffmpeg (path : string) : string + string := inr "ffmpeg not found".
End Bridges.

(** * Properties *)

Example calendar_parse :
  Calendar.parse "2024-03-01 10:00:00" = Some 65058372000
  /\ Calendar.print 65058372000 = "2024-03-01 10:00:00"
  /\ Calendar.parse "2024-03-01" = Some 65058336000
  /\ Calendar.parse "2024-02-30" = None
  /\ Calendar.parse "yesterday" = None
  /\ Calendar.parse "" = None.
Proof. vm_compute. repeat split. Qed.

(* ================================================================== *)
(** ** Facts about the relational engine *)

Section EngineFacts.
Context {A : Type}.
Variable before : A -> A -> bool.

Lemma insert_by_perm (x : A) (l : list A) :
  Permutation (insert_by before x l) (x :: l).
Proof.
  induction l as [|y l IH]; simpl.
  - apply Permutation_refl.
  - destruct (before x y).
    + apply Permutation_refl.
    + eapply perm_trans; [apply perm_skip, IH | apply perm_swap].
Qed.

Lemma ORDER_BY_perm (l : list A) : Permutation (ORDER_BY before l) l.
Proof.
  induction l as [|x l IH]; simpl.
  - apply perm_nil.
  - eapply perm_trans; [apply insert_by_perm | apply perm_skip, IH].
Qed.

Lemma ORDER_BY_In (x : A) (l : list A) : In x (ORDER_BY before l) <-> In x l.
Proof.
  split; apply Permutation_in;
    [apply ORDER_BY_perm | apply Permutation_sym, ORDER_BY_perm].
Qed.

Lemma ORDER_BY_length (l : list A) : length (ORDER_BY before l) = length l.
Proof. apply Permutation_length, ORDER_BY_perm. Qed.


(** With a total and transitive comparison the output is ordered. *)
Hypothesis before_total : forall x y, before x y = true \/ before y x = true.
Hypothesis before_trans :
  forall x y z, before x y = true -> before y z = true -> before x z = true.

Let ordered (x y : A) : Prop := before x y = true.

Lemma insert_by_sorted (x : A) (l : list A) :
  StronglySorted ordered l -> StronglySorted ordered (insert_by before x l).
Proof.
  induction 1 as [|y l Hl IH Hy]; simpl.
  - constructor; constructor.
  - destruct (before x y) eqn:E.
    + constructor.
      * constructor; assumption.
      * constructor; [exact E |].
        eapply Forall_impl; [| exact Hy].
        intros z Hz. eapply before_trans; eassumption.
    + constructor; [exact IH |].
      eapply Permutation_Forall.
      * apply Permutation_sym, insert_by_perm.
      * constructor; [| exact Hy].
        destruct (before_total x y) as [H | H]; [congruence | exact H].
Qed.

Lemma ORDER_BY_sorted (l : list A) : StronglySorted ordered (ORDER_BY before l).
Proof.
  induction l as [|x l IH]; simpl.
  - constructor.
  - apply insert_by_sorted, IH.
Qed.
End EngineFacts.

Section LimitFacts.
Context {A : Type}.

Lemma LIMIT_length (n : Z) (l : list A) :
  0 <= n -> length (LIMIT n l) = Nat.min (Z.to_nat n) (length l).
Proof.
  intros Hn. unfold LIMIT.
  destruct (Z.ltb_spec n 0); [lia |]. apply length_firstn.
Qed.

Lemma LIMIT_incl (n : Z) (l : list A) : incl (LIMIT n l) l.
Proof.
  unfold LIMIT. destruct (n <? 0).
  - apply incl_refl.
  - intros x Hx. rewrite <- (firstn_skipn (Z.to_nat n) l).
    apply in_or_app; left; exact Hx.
Qed.


Lemma LIMIT_all (n : Z) (l : list A) :
  (length l <= Z.to_nat n)%nat -> LIMIT n l = l.
Proof.
  intros H. unfold LIMIT. destruct (n <? 0); [reflexivity |].
  apply firstn_all2, H.
Qed.

Lemma firstn_sorted (R : A -> A -> Prop) (n : nat) (l : list A) :
  StronglySorted R l -> StronglySorted R (firstn n l).
Proof.
  intros H. revert n.
  induction H as [|x l Hl IH Hx]; intros [|n]; simpl; try constructor.
  - apply IH.
  - rewrite Forall_forall in *. intros y Hy. apply Hx.
    rewrite <- (firstn_skipn n l). apply in_or_app; left; exact Hy.
Qed.

Lemma LIMIT_sorted (R : A -> A -> Prop) (n : Z) (l : list A) :
  StronglySorted R l -> StronglySorted R (LIMIT n l).
Proof.
  intros H. unfold LIMIT. destruct (n <? 0); [exact H |].
  apply firstn_sorted, H.
Qed.


End LimitFacts.

(** Where the comparison admits no ties among the rows, the ordered result is
    the only ordered arrangement of them: the scan order plays no part. *)
Lemma sorted_perm_unique {A : Type} (R : A -> A -> Prop) (l l' : list A) :
  (forall x y, In x l -> In y l -> R x y -> R y x -> x = y) ->
  StronglySorted R l -> StronglySorted R l' -> Permutation l l' -> l = l'.
Proof.
  intros Hanti Hl. revert l' Hanti.
  induction Hl as [|x l Hl IH Hx]; intros l' Hanti Hl' Hperm.
  - apply Permutation_nil in Hperm. subst. reflexivity.
  - destruct Hl' as [|y l' Hl' Hy].
    + apply Permutation_sym, Permutation_nil in Hperm. discriminate.
    + assert (Exy : x = y).
      { assert (Hxin : In x (y :: l'))
          by (apply (Permutation_in _ Hperm); left; reflexivity).
        assert (Hyin : In y (x :: l))
          by (apply (Permutation_in _ (Permutation_sym Hperm)); left; reflexivity).
        destruct Hxin as [E | Hxin]; [symmetry; exact E |].
        destruct Hyin as [E | Hyin]; [exact E |].
        rewrite Forall_forall in Hx, Hy.
        apply Hanti; [left; reflexivity | right; exact Hyin | |].
        - apply Hx, Hyin.
        - apply Hy, Hxin. }
      subst y. f_equal. apply IH.
      * intros a b Ha Hb. apply Hanti; right; assumption.
      * exact Hl'.
      * apply Permutation_cons_inv in Hperm. exact Hperm.
Qed.

Lemma ORDER_BY_unique {A : Type} (before : A -> A -> bool) (l l' : list A) :
  (forall x y, before x y = true \/ before y x = true) ->
  (forall x y z, before x y = true -> before y z = true -> before x z = true) ->
  (forall x y, In x l -> In y l ->
     before x y = true -> before y x = true -> x = y) ->
  Permutation l l' ->
  StronglySorted (fun x y => before x y = true) l' ->
  l' = ORDER_BY before l.
Proof.
  intros Htotal Htrans Hanti Hperm Hsorted. symmetry.
  apply (sorted_perm_unique (fun x y => before x y = true)).
  - intros x y Hx Hy. apply Hanti; apply (ORDER_BY_In before); assumption.
  - apply ORDER_BY_sorted; assumption.
  - exact Hsorted.
  - eapply perm_trans; [apply ORDER_BY_perm | exact Hperm].
Qed.

Lemma Return_inj {B : Type} (a b : B) : Return a = Return b -> a = b.
Proof. intros H. injection H as H. exact H. Qed.

Lemma Online_inj (s s' : Store) : Online s = Online s' -> s = s'.
Proof. intros H. injection H as H. exact H. Qed.

(* ================================================================== *)
(** ** The join *)

Lemma left_join_chats_fields (cs : list Chat.t) (r : MessageRow.t) (m : Message.t) :
  In m (left_join_chats cs r) ->
  Message.id m = MessageRow.id r
  /\ Message.chat_jid m = MessageRow.chat_jid r
  /\ Message.timestamp m = MessageRow.timestamp r.
Proof.
  unfold left_join_chats.
  destruct (filter _ cs) as [|c matched].
  - intros [<- | []]. repeat split.
  - intros H. apply in_map_iff in H. destruct H as [c' [<- _]]. repeat split.
Qed.

Lemma left_join_chats_inhabited (cs : list Chat.t) (r : MessageRow.t) :
  exists m, In m (left_join_chats cs r).
Proof.
  unfold left_join_chats.
  destruct (filter _ cs) as [|c matched].
  - eexists. left. reflexivity.
  - eexists. left. reflexivity.
Qed.

Lemma joined_of_row (s : Store) (r : MessageRow.t) :
  In r (messages s) ->
  exists m, In m (messages_with_chat_name s) /\ Message.id m = MessageRow.id r.
Proof.
  intros Hr. destruct (left_join_chats_inhabited (chats s) r) as [m Hm].
  exists m. split.
  - apply in_flat_map. exists r. split; assumption.
  - apply (left_join_chats_fields _ _ _ Hm).
Qed.

Lemma joined_from_row (s : Store) (m : Message.t) :
  In m (messages_with_chat_name s) ->
  exists r, In r (messages s) /\ Message.id m = MessageRow.id r.
Proof.
  intros Hm. apply in_flat_map in Hm. destruct Hm as [r [Hr Hm]].
  exists r. split; [exact Hr |]. apply (left_join_chats_fields _ _ _ Hm).
Qed.

(** The lookup of the target by identifier. *)
Lemma target_found (s : Store) (message_id : string) :
  (exists r, In r (messages s) /\ MessageRow.id r = message_id) ->
  exists target,
    fetchone (filter (fun m => (Message.id m =? message_id)%string)
                (messages_with_chat_name s)) = Some target
    /\ Message.id target = message_id
    /\ In target (messages_with_chat_name s).
Proof.
  intros [r [Hr Hid]].
  destruct (joined_of_row s r Hr) as [m [Hm Hmid]].
  assert (Hin : In m (filter (fun m => (Message.id m =? message_id)%string)
                        (messages_with_chat_name s))).
  { apply filter_In. split; [exact Hm |]. apply String.eqb_eq. congruence. }
  destruct (filter _ (messages_with_chat_name s)) as [|target l] eqn:E.
  - destruct Hin.
  - exists target. split; [reflexivity |].
    assert (Ht : In target (target :: l)) by (left; reflexivity).
    rewrite <- E in Ht. apply filter_In in Ht. destruct Ht as [Ht1 Ht2].
    split; [apply String.eqb_eq, Ht2 | exact Ht1].
Qed.

Lemma target_missing (s : Store) (message_id : string) :
  (forall r, In r (messages s) -> MessageRow.id r <> message_id) ->
  fetchone (filter (fun m => (Message.id m =? message_id)%string)
              (messages_with_chat_name s)) = None.
Proof.
  intros Hnone.
  destruct (filter _ (messages_with_chat_name s)) as [|m l] eqn:E; [reflexivity |].
  assert (Hm : In m (m :: l)) by (left; reflexivity).
  rewrite <- E in Hm. apply filter_In in Hm. destruct Hm as [Hm Hid].
  apply String.eqb_eq in Hid.
  destruct (joined_from_row s m Hm) as [r [Hr Hmr]].
  exfalso. apply (Hnone r Hr). congruence.
Qed.

(* ================================================================== *)
(** ** Context window assembler *)

Lemma timestamp_desc_total (x y : Message.t) :
  timestamp_desc x y = true \/ timestamp_desc y x = true.
Proof. unfold timestamp_desc. rewrite !Z.leb_le. lia. Qed.

Lemma timestamp_desc_trans (x y z : Message.t) :
  timestamp_desc x y = true -> timestamp_desc y z = true ->
  timestamp_desc x z = true.
Proof. unfold timestamp_desc. rewrite !Z.leb_le. lia. Qed.



Lemma sorted_impl {A : Type} (R R' : A -> A -> Prop) (l : list A) :
  (forall x y, R x y -> R' x y) -> StronglySorted R l -> StronglySorted R' l.
Proof.
  intros HR. induction 1 as [|x l Hl IH Hx]; constructor.
  - exact IH.
  - eapply Forall_impl; [| exact Hx]. intros y. apply HR.
Qed.




(** What the function computes once the target row is found. *)
Lemma get_message_context_found (s : Store) (message_id : string)
    (before after : Z) (target : Message.t) :
  fetchone (filter (fun m => (Message.id m =? message_id)%string)
              (messages_with_chat_name s)) = Some target ->
  get_message_context (Online s) message_id before after =
  Return
    (MessageContext.mk target
       (rev (LIMIT before
               (ORDER_BY timestamp_desc
                  (filter (earlier_in_chat target) (messages_with_chat_name s)))))
       (LIMIT after
          (ORDER_BY timestamp_asc
             (filter (later_in_chat target) (messages_with_chat_name s))))).
Proof.
  intros H. unfold get_message_context. simpl. rewrite H. reflexivity.
Qed.


Example context_clipped_at_the_ends :
  get_message_context (Online Sample.store) "A1" 5 1 =
  Return (MessageContext.mk Sample.m1 [] [Sample.m2]).
Proof. reflexivity. Qed.



(** C6. When no message of the store carries the given identifier,
    [get_message_context] raises the not-found [ValueError] naming the
    identifier, which is no returned context (not even an empty one); when
    some message carries it, the call returns a context. *)
Theorem get_message_context_not_found_iff (s : Store) (message_id : string)
    (before after : Z) :
  ((forall r, In r (messages s) -> MessageRow.id r <> message_id) ->
   get_message_context (Online s) message_id before after
     = Raise (ValueError (not_found_message message_id))
   /\ forall context,
        get_message_context (Online s) message_id before after
          <> Return context)
  /\ ((exists r, In r (messages s) /\ MessageRow.id r = message_id) ->
      exists context,
        get_message_context (Online s) message_id before after = Return context
        /\ Message.id (MessageContext.message context) = message_id).
Proof.
  split.
  - intros Hnone.
    assert (E : get_message_context (Online s) message_id before after
                = Raise (ValueError (not_found_message message_id))).
    { unfold get_message_context. simpl.
      rewrite (target_missing s message_id Hnone). reflexivity. }
    split; [exact E |]. intros context. rewrite E. discriminate.
  - intros Hex.
    destruct (target_found s message_id Hex) as [target [Hfetch [Hid _]]].
    eexists. split; [apply get_message_context_found, Hfetch | exact Hid].
Qed.

Lemma get_message_context_not_found_iff_witness :
  get_message_context (Online Sample.store) "Z9" 1 1
    = Raise (ValueError "Message with ID Z9 not found")
  /\ exists context,
       get_message_context (Online Sample.store) "A3" 1 1 = Return context.
Proof.
  split.
  - apply (get_message_context_not_found_iff Sample.store "Z9" 1 1).
    intros r [<- | [<- | [<- | []]]]; discriminate.
  - destruct (get_message_context_not_found_iff Sample.store "A3" 1 1)
      as [_ Hsome].
    destruct Hsome as [context [H _]].
    + exists (Sample.row Sample.t3 "555" "see you" "120@g.us" "A3").
      split; [simpl; tauto | reflexivity].
    + exists context. exact H.
Defined.

(* ================================================================== *)
(** ** Text *)

Lemma append_assoc (a b c : string) : ((a ++ b) ++ c = a ++ (b ++ c))%string.
Proof. induction a as [|x a IH]; simpl; [reflexivity | rewrite IH; reflexivity]. Qed.

Lemma append_empty_r (a : string) : (a ++ "" = a)%string.
Proof. induction a as [|x a IH]; simpl; [reflexivity | rewrite IH; reflexivity]. Qed.

Lemma append_eq_empty (a b : string) : (a ++ b = "")%string -> a = "" /\ b = "".
Proof. destruct a; simpl; [tauto | discriminate]. Qed.

(* ================================================================== *)
(** ** Message listing *)

Section ListMessagesFacts.
Context {DT : DateTime}.
Local Open Scope list_scope.

Lemma concat_empty_sep_cons (x : string) (l : list string) :
  String.concat "" (x :: l) = (x ++ String.concat "" l)%string.
Proof.
  destruct l as [|y l]; simpl; [rewrite append_empty_r |]; reflexivity.
Qed.

Lemma fold_left_lines (db : database) (l : list Message.t) (acc : string) :
  fold_left (fun output message => (output ++ format_message db message true)%string)
    l acc = (acc ++ lines db l)%string.
Proof.
  revert acc. induction l as [|m l IH]; intros acc.
  - simpl. rewrite append_empty_r. reflexivity.
  - unfold lines. rewrite map_cons, concat_empty_sep_cons.
    simpl fold_left. rewrite IH. unfold lines. apply append_assoc.
Qed.

Lemma format_messages_list_nonempty (db : database) (l : list Message.t) :
  l <> [] -> format_messages_list db l true = lines db l.
Proof.
  destruct l as [|m l]; [congruence |]. intros _.
  unfold format_messages_list. rewrite fold_left_lines. reflexivity.
Qed.

Lemma lines_app (db : database) (l1 l2 : list Message.t) :
  lines db (l1 ++ l2) = (lines db l1 ++ lines db l2)%string.
Proof.
  induction l1 as [|m l1 IH].
  - reflexivity.
  - unfold lines in *. rewrite <- app_comm_cons, !map_cons, !concat_empty_sep_cons.
    rewrite IH. symmetry. apply append_assoc.
Qed.

(** [list_messages] formats the sequence [list_messages_shown] computes. *)
Lemma list_messages_formats_shown (db : database)
    (after before sender_phone_number chat_jid query : option string)
    (limit page : Z) (include_context : bool) (context_before context_after : Z) :
  list_messages db after before sender_phone_number chat_jid query limit page
    include_context context_before context_after
  = catch_sqlite
      (shown <- list_messages_shown db after before sender_phone_number
                  chat_jid query limit page include_context
                  context_before context_after ;;
       Return (Text (format_messages_list db shown true)))
      (Return EmptyList).
Proof.
  unfold list_messages, list_messages_shown.
  destruct (list_messages_result _ _ _ _ _ _ _ _) as [result | e];
    [| reflexivity].
  simpl. destruct (include_context && nonempty result); reflexivity.
Qed.

Lemma list_messages_result_online (s : Store)
    (after before sender_phone_number chat_jid query : option string)
    (limit page : Z) (after_clause before_clause : list clause) :
  time_clause "after" timestamp_gt after = Return after_clause ->
  time_clause "before" timestamp_lt before = Return before_clause ->
  list_messages_result (Online s) after before sender_phone_number chat_jid
    query limit page
  = Return
      (LIMIT_OFFSET limit (page * limit)
         (selection s after_clause before_clause sender_phone_number chat_jid query)).
Proof.
  intros Ha Hb. unfold list_messages_result. simpl.
  rewrite Ha. simpl. rewrite Hb. reflexivity.
Qed.

(** A returned selection comes from a reachable store and accepted bounds. *)
Lemma list_messages_result_inv (db : database)
    (after before sender_phone_number chat_jid query : option string)
    (limit page : Z) (result : list Message.t) :
  list_messages_result db after before sender_phone_number chat_jid query
    limit page = Return result ->
  exists s after_clause before_clause,
    db = Online s
    /\ time_clause "after" timestamp_gt after = Return after_clause
    /\ time_clause "before" timestamp_lt before = Return before_clause
    /\ result =
       LIMIT_OFFSET limit (page * limit)
         (selection s after_clause before_clause sender_phone_number chat_jid query).
Proof.
  unfold list_messages_result.
  destruct db as [| | s]; simpl; try discriminate.
  - destruct (time_clause "after" timestamp_gt after); simpl; [| discriminate].
    destruct (time_clause "before" timestamp_lt before); simpl; discriminate.
  - destruct (time_clause "after" timestamp_gt after) as [ac |] eqn:Ea;
      simpl; [| discriminate].
    destruct (time_clause "before" timestamp_lt before) as [bc |] eqn:Eb;
      simpl; [| discriminate].
    intros H. injection H as <-. exists s, ac, bc. repeat split.
Qed.

Lemma LIMIT_OFFSET_incl {A : Type} (n k : Z) (l : list A) :
  incl (LIMIT_OFFSET n k l) l.
Proof.
  unfold LIMIT_OFFSET. intros x Hx. apply LIMIT_incl in Hx.
  rewrite <- (firstn_skipn (Z.to_nat k) l). apply in_or_app; right; exact Hx.
Qed.

Lemma selection_In (s : Store) (ac bc : list clause)
    (sender_phone_number chat_jid query : option string) (m : Message.t) :
  In m (selection s ac bc sender_phone_number chat_jid query) ->
  In m (messages_with_chat_name s)
  /\ Forall (fun c => holds m c = true) (ac ++ bc).
Proof.
  unfold selection. intros H. apply ORDER_BY_In in H. apply filter_In in H.
  destruct H as [Hm Hw]. split; [exact Hm |].
  unfold WHERE in Hw. rewrite forallb_forall in Hw.
  apply Forall_forall. intros c Hc. apply Hw.
  rewrite app_assoc. apply in_or_app; left; exact Hc.
Qed.

(** The identifier of a selected message is found again by the lookup of
    [get_message_context], so the context loop never raises. *)
Lemma add_context_returns (s : Store) (context_before context_after : Z)
    (result : list Message.t) :
  incl result (messages_with_chat_name s) ->
  exists contexts,
    Forall2
      (fun msg context =>
         get_message_context (Online s) (Message.id msg)
           context_before context_after = Return context)
      result contexts
    /\ add_context (Online s) context_before context_after result
       = Return (flat_map window contexts).
Proof.
  unfold add_context.
  induction result as [|msg result IH]; intros Hincl.
  - exists []. split; [constructor | reflexivity].
  - destruct IH as [contexts [HF Hadd]].
    { intros x Hx. apply Hincl. right. exact Hx. }
    assert (Hex : exists r, In r (messages s)
                            /\ MessageRow.id r = Message.id msg).
    { destruct (joined_from_row s msg) as [r [Hr Hid]].
      - apply Hincl. left. reflexivity.
      - exists r. split; [exact Hr | symmetry; exact Hid]. }
    destruct (target_found s (Message.id msg) Hex) as [target [Hfetch _]].
    pose proof (get_message_context_found s (Message.id msg)
                  context_before context_after target Hfetch) as Hctx.
    eexists (_ :: contexts). split.
    + constructor; [exact Hctx | exact HF].
    + simpl mapM. rewrite Hctx. simpl bind.
      destruct (mapM _ result) as [contexts' |] eqn:E; simpl in Hadd;
        [| discriminate].
      injection Hadd as Hadd. simpl. rewrite Hadd. reflexivity.
Qed.




Lemma NoDup_map_In_inj {A B : Type} (f : A -> B) (l : list A) (x y : A) :
  NoDup (map f l) -> In x l -> In y l -> f x = f y -> x = y.
Proof.
  induction l as [|a l IH]; simpl; intros Hnd Hx Hy Hf; [destruct Hx |].
  inversion Hnd as [|b l' Hnotin Hnd']; subst.
  destruct Hx as [-> | Hx], Hy as [-> | Hy].
  - reflexivity.
  - exfalso. apply Hnotin. rewrite Hf. apply in_map, Hy.
  - exfalso. apply Hnotin. rewrite <- Hf. apply in_map, Hx.
  - apply IH; assumption.
Qed.




Lemma time_clause_malformed (field : string) (mk_clause : Z -> clause)
    (value : string) :
  truthy value = true -> fromisoformat value = None ->
  time_clause field mk_clause (Some value)
  = Raise (ValueError (invalid_date_message field value)).
Proof. intros Ht Hp. unfold time_clause. rewrite Ht, Hp. reflexivity. Qed.


(** C5, amended. Once the connection to the store is opened, a non-empty
    [after] or [before] that [fromisoformat] rejects makes the whole call
    raise the [ValueError] that names the field and the rejected string, and
    nothing is returned.  (An empty string counts as no bound.) *)
Theorem list_messages_rejects_malformed_bound (db : database)
    (after before sender_phone_number chat_jid query : option string)
    (limit page : Z) (include_context : bool)
    (context_before context_after : Z) :
  db <> Unavailable ->
  (forall value,
     after = Some value -> truthy value = true -> fromisoformat value = None ->
     list_messages db after before sender_phone_number chat_jid query
       limit page include_context context_before context_after
     = Raise (ValueError (invalid_date_message "after" value)))
  /\ (forall value after_clause,
        time_clause "after" timestamp_gt after = Return after_clause ->
        before = Some value -> truthy value = true ->
        fromisoformat value = None ->
        list_messages db after before sender_phone_number chat_jid query
          limit page include_context context_before context_after
        = Raise (ValueError (invalid_date_message "before" value))).
Proof.
  intros Hdb. split.
  - intros value -> Ht Hp. unfold list_messages, list_messages_result.
    rewrite (time_clause_malformed _ _ _ Ht Hp).
    destruct db as [| | s]; [congruence | reflexivity | reflexivity].
  - intros value ac Ha -> Ht Hp. unfold list_messages, list_messages_result.
    rewrite Ha, (time_clause_malformed _ _ _ Ht Hp).
    destruct db as [| | s]; [congruence | reflexivity | reflexivity].
Qed.

Lemma filter_none {A : Type} (f : A -> bool) (l : list A) :
  (forall x, In x l -> f x = false) -> filter f l = [].
Proof.
  induction l as [|x l IH]; intros H; simpl; [reflexivity |].
  rewrite (H x) by (left; reflexivity).
  apply IH. intros y Hy. apply H. right. exact Hy.
Qed.

Lemma LIMIT_OFFSET_nil {A : Type} (n k : Z) : LIMIT_OFFSET n k (@nil A) = [].
Proof.
  unfold LIMIT_OFFSET, LIMIT. rewrite skipn_nil.
  destruct (n <? 0); [reflexivity | apply firstn_nil].
Qed.


End ListMessagesFacts.

(* ================================================================== *)
(** ** Message listing on the sample store *)

Section ListMessagesExamples.
Import Calendar.
Local Open Scope list_scope.




Lemma list_messages_rejects_malformed_bound_witness :
  list_messages (Online Sample.store) (Some "yesterday") None None None None
    20 0 true 1 1
  = Raise
      (ValueError
         "Invalid date format for 'after': yesterday. Please use ISO-8601 format.").
Proof.
  destruct (list_messages_rejects_malformed_bound (Online Sample.store)
              (Some "yesterday") None None None None 20 0 true 1 1)
    as [Hafter _].
  - discriminate.
  - apply (Hafter "yesterday"); reflexivity.
Defined.

(** An empty [after] is no timestamp, yet the call raises nothing and lists
    every message. *)
Lemma list_messages_ignores_empty_bound :
  fromisoformat "" = None
  /\ list_messages (Online Sample.store) (Some "") None None None None
       20 0 false 1 1
     = Return
         (Text
            ("[Family] Ana Garcia (2024-03-01 10:02:00) : see you" ++ newline
             ++ "[Family] Bob (2024-03-01 10:01:00) : lunch?" ++ newline
             ++ "[Family] Ana Garcia (2024-03-01 10:00:00) : hello"
             ++ newline)%string).
Proof. split; reflexivity. Qed.


End ListMessagesExamples.

(* ================================================================== *)
(** ** Pagination *)

Section PaginationFacts.
Context {A : Type}.
Local Open Scope list_scope.

Lemma firstn_add_skipn (a b : nat) (l : list A) :
  firstn (a + b) l = firstn a l ++ firstn b (skipn a l).
Proof.
  revert l. induction a as [|a IH]; intros l; simpl.
  - reflexivity.
  - destruct l as [|x l]; simpl.
    + rewrite firstn_nil. reflexivity.
    + rewrite IH. reflexivity.
Qed.

(** Pages [0 .. k] of size [n], side by side, are the first [n * (k + 1)]
    rows. *)
Lemma firstn_pages (n k : nat) (l : list A) :
  concat (map (fun p => firstn n (skipn (p * n) l)) (seq 0 (S k)))
  = firstn (n * S k) l.
Proof.
  induction k as [|k IH].
  - simpl. rewrite app_nil_r, Nat.mul_1_r. reflexivity.
  - rewrite seq_S, map_app, concat_app, IH. simpl.
    rewrite app_nil_r.
    replace (n * S (S k))%nat with (n * S k + n)%nat by lia.
    rewrite firstn_add_skipn.
    replace (n * S k)%nat with (S k * n)%nat by lia. reflexivity.
Qed.

Lemma LIMIT_OFFSET_page (limit : Z) (p : nat) (l : list A) :
  0 < limit ->
  LIMIT_OFFSET limit (Z.of_nat p * limit) l
  = firstn (Z.to_nat limit) (skipn (p * Z.to_nat limit) l).
Proof.
  intros H. unfold LIMIT_OFFSET, LIMIT.
  destruct (Z.ltb_spec limit 0); [lia |].
  rewrite Z2Nat.inj_mul, Nat2Z.id by lia. reflexivity.
Qed.

Lemma LIMIT_OFFSET_pages (limit : Z) (k : nat) (l : list A) :
  0 < limit ->
  concat (map (fun page => LIMIT_OFFSET limit (page * limit) l) (pages k))
  = LIMIT_OFFSET (limit * Z.of_nat (S k)) (0 * (limit * Z.of_nat (S k))) l.
Proof.
  intros H. unfold pages. rewrite map_map.
  rewrite (map_ext _ (fun p => firstn (Z.to_nat limit)
                                 (skipn (p * Z.to_nat limit) l)))
    by (intros p; apply LIMIT_OFFSET_page, H).
  rewrite firstn_pages.
  unfold LIMIT_OFFSET, LIMIT.
  destruct (Z.ltb_spec (limit * Z.of_nat (S k)) 0); [lia |].
  rewrite Z.mul_0_l. simpl skipn.
  rewrite Z2Nat.inj_mul, Nat2Z.id by lia. reflexivity.
Qed.

Lemma LIMIT_OFFSET_length (limit offset : Z) (l : list A) :
  0 <= limit -> (length (LIMIT_OFFSET limit offset l) <= Z.to_nat limit)%nat.
Proof.
  intros H. unfold LIMIT_OFFSET. rewrite LIMIT_length by exact H. lia.
Qed.


Lemma Forall2_map_outcome {B : Type} (f : Z -> outcome B) (g : Z -> B)
    (l : list Z) :
  (forall page, f page = Return (g page)) ->
  Forall2 (fun page out => f page = Return out) l (map g l).
Proof.
  intros H. induction l as [|x l IH]; simpl; constructor; auto.
Qed.
End PaginationFacts.

Lemma list_chats_online (s : Store) (query : option string) (limit page : Z)
    (include_last_message : bool) (sort_by : string) :
  list_chats (Online s) query limit page include_last_message sort_by
  = Return
      (map (select_chat include_last_message)
         (LIMIT_OFFSET limit (page * limit)
            (chat_order sort_by (filter (chat_matches query) (chats s))))).
Proof. reflexivity. Qed.

Lemma list_chats_offline (db : database) (query : option string)
    (limit page : Z) (include_last_message : bool) (sort_by : string) :
  (forall s, db <> Online s) ->
  list_chats db query limit page include_last_message sort_by = Return [].
Proof.
  intros H. destruct db as [| | s]; [reflexivity | reflexivity |].
  exfalso. apply (H s). reflexivity.
Qed.

Lemma concat_map_map {A B : Type} (f : A -> B) (ls : list (list A)) :
  concat (map (map f) ls) = map f (concat ls).
Proof.
  induction ls as [|l ls IH]; simpl; [reflexivity |].
  rewrite map_app, IH. reflexivity.
Qed.

Lemma concat_repeat_nil {A B : Type} (l : list B) :
  concat (map (fun _ => @nil A) l) = [].
Proof. induction l as [|x l IH]; simpl; [reflexivity | exact IH]. Qed.

(** Pages of [list_chats] side by side are the one page of [k + 1] times the
    size. *)
Lemma list_chats_pages (db : database) (query : option string) (limit : Z)
    (include_last_message : bool) (sort_by : string) (k : nat) :
  0 < limit ->
  exists pages_out whole,
    Forall2
      (fun page out =>
         list_chats db query limit page include_last_message sort_by
         = Return out)
      (pages k) pages_out
    /\ list_chats db query (limit * Z.of_nat (S k)) 0 include_last_message
         sort_by = Return whole
    /\ concat pages_out = whole.
Proof.
  intros Hlimit. destruct db as [| | s].
  - exists (map (fun _ => []) (pages k)), []. split; [| split].
    + apply Forall2_map_outcome. reflexivity.
    + reflexivity.
    + apply concat_repeat_nil.
  - exists (map (fun _ => []) (pages k)), []. split; [| split].
    + apply Forall2_map_outcome. reflexivity.
    + reflexivity.
    + apply concat_repeat_nil.
  - eexists (map _ (pages k)), _. split; [| split].
    + apply Forall2_map_outcome. intros page. apply list_chats_online.
    + apply list_chats_online.
    + rewrite <- (map_map (fun page => LIMIT_OFFSET limit (page * limit) _)
                    (map (select_chat include_last_message))).
      rewrite concat_map_map, LIMIT_OFFSET_pages by exact Hlimit.
      reflexivity.
Qed.

Section ListMessagesPages.
Context {DT : DateTime}.
Local Open Scope list_scope.

Lemma windows_of_contexts (db : database) (context_before context_after : Z)
    (rows : list Message.t) (contexts : list MessageContext.t) :
  Forall2
    (fun msg context =>
       get_message_context db (Message.id msg) context_before context_after
       = Return context)
    rows contexts ->
  flat_map window contexts
  = flat_map (window_of db context_before context_after) rows.
Proof.
  induction 1 as [|msg context rows contexts H _ IH]; simpl.
  - reflexivity.
  - unfold window_of at 1. rewrite H, IH. reflexivity.
Qed.

Lemma list_messages_shown_online (s : Store)
    (after before sender_phone_number chat_jid query : option string)
    (limit page : Z) (include_context : bool)
    (context_before context_after : Z)
    (after_clause before_clause : list clause) :
  time_clause "after" timestamp_gt after = Return after_clause ->
  time_clause "before" timestamp_lt before = Return before_clause ->
  list_messages_shown (Online s) after before sender_phone_number chat_jid
    query limit page include_context context_before context_after
  = Return
      (shown_of (Online s) include_context context_before context_after
         (LIMIT_OFFSET limit (page * limit)
            (selection s after_clause before_clause sender_phone_number
               chat_jid query))).
Proof.
  intros Ha Hb. unfold list_messages_shown.
  rewrite (list_messages_result_online s _ _ _ _ _ _ _ _ _ Ha Hb).
  simpl bind. unfold shown_of.
  destruct include_context; [| reflexivity].
  destruct (LIMIT_OFFSET limit (page * limit) _) as [|m rows] eqn:E;
    [reflexivity |].
  simpl andb. simpl nonempty. cbv iota.
  destruct (add_context_returns s context_before context_after (m :: rows))
    as [contexts [HF Hadd]].
  - rewrite <- E. intros x Hx. apply LIMIT_OFFSET_incl in Hx.
    apply selection_In in Hx. apply Hx.
  - rewrite Hadd, (windows_of_contexts _ _ _ _ _ HF). reflexivity.
Qed.

Lemma shown_of_concat (db : database) (include_context : bool)
    (context_before context_after : Z) (ls : list (list Message.t)) :
  concat (map (shown_of db include_context context_before context_after) ls)
  = shown_of db include_context context_before context_after (concat ls).
Proof.
  unfold shown_of. destruct include_context.
  - induction ls as [|l ls IH]; simpl; [reflexivity |].
    rewrite flat_map_app, IH. reflexivity.
  - rewrite map_id. reflexivity.
Qed.

Lemma lines_concat (db : database) (ls : list (list Message.t)) :
  String.concat "" (map (lines db) ls) = lines db (concat ls).
Proof.
  induction ls as [|l ls IH].
  - reflexivity.
  - rewrite map_cons, concat_empty_sep_cons, IH. simpl concat.
    rewrite lines_app. reflexivity.
Qed.

Lemma texts_concat (db : database) (ls : list (list Message.t)) :
  ls <> [] -> Forall (fun out => out <> []) ls ->
  String.concat "" (map (fun out => format_messages_list db out true) ls)
  = format_messages_list db (concat ls) true.
Proof.
  intros Hne Hall.
  rewrite (map_ext_in _ (lines db)).
  - rewrite lines_concat. symmetry. apply format_messages_list_nonempty.
    destruct ls as [|l ls]; [congruence |].
    inversion Hall; subst. simpl. intros H. apply app_eq_nil in H.
    tauto.
  - intros out Hout. apply format_messages_list_nonempty.
    rewrite Forall_forall in Hall. apply Hall, Hout.
Qed.

Lemma Forall2_map_graph {B C : Type} (P : B -> C -> Prop) (g : B -> C)
    (l : list B) :
  (forall x, P x (g x)) -> Forall2 P l (map g l).
Proof. intros H. induction l as [|x l IH]; simpl; constructor; auto. Qed.

Lemma list_messages_shown_inv (db : database)
    (after before sender_phone_number chat_jid query : option string)
    (limit page : Z) (include_context : bool)
    (context_before context_after : Z) (shown : list Message.t) :
  list_messages_shown db after before sender_phone_number chat_jid query
    limit page include_context context_before context_after = Return shown ->
  exists s after_clause before_clause,
    db = Online s
    /\ time_clause "after" timestamp_gt after = Return after_clause
    /\ time_clause "before" timestamp_lt before = Return before_clause.
Proof.
  unfold list_messages_shown.
  destruct (list_messages_result db after before sender_phone_number chat_jid
              query limit page) as [result | e] eqn:E; [| discriminate].
  intros _.
  destruct (list_messages_result_inv _ _ _ _ _ _ _ _ _ E)
    as [s [ac [bc [Hdb [Ha [Hb _]]]]]].
  exists s, ac, bc. auto.
Qed.

(** C7, amended. For a fixed store, every [limit > 0] and every [k]: the
    lists [list_chats] returns for pages [0 .. k], side by side, are the list
    it returns for page 0 with page size [limit * (k + 1)]; the same holds for
    the sequences of messages [list_messages] formats, and for the texts it
    returns whenever none of the pages is empty.  (The model orders rows with
    equal keys by scan order, so no proviso on ties is needed.) *)
Theorem pagination_concatenates (db : database)
    (chat_query : option string) (include_last_message : bool)
    (sort_by : string)
    (after before sender_phone_number chat_jid query : option string)
    (include_context : bool) (context_before context_after : Z)
    (limit : Z) (k : nat) :
  0 < limit ->
  (exists pages_out whole,
     Forall2
       (fun page out =>
          list_chats db chat_query limit page include_last_message sort_by
          = Return out)
       (pages k) pages_out
     /\ list_chats db chat_query (limit * Z.of_nat (S k)) 0
          include_last_message sort_by = Return whole
     /\ concat pages_out = whole)
  /\ (forall whole,
        list_messages_shown db after before sender_phone_number chat_jid
          query (limit * Z.of_nat (S k)) 0 include_context
          context_before context_after = Return whole ->
        exists pages_out,
          Forall2
            (fun page out =>
               list_messages_shown db after before sender_phone_number
                 chat_jid query limit page include_context
                 context_before context_after = Return out
               /\ list_messages db after before sender_phone_number chat_jid
                    query limit page include_context
                    context_before context_after
                  = Return (Text (format_messages_list db out true)))
            (pages k) pages_out
          /\ concat pages_out = whole
          /\ list_messages db after before sender_phone_number chat_jid
               query (limit * Z.of_nat (S k)) 0 include_context
               context_before context_after
             = Return (Text (format_messages_list db whole true))
          /\ (Forall (fun out => out <> []) pages_out ->
              String.concat ""
                (map (fun out => format_messages_list db out true) pages_out)
              = format_messages_list db whole true)).
Proof.
  intros Hlimit. split; [apply list_chats_pages, Hlimit |].
  intros whole Hwhole.
  destruct (list_messages_shown_inv _ _ _ _ _ _ _ _ _ _ _ _ Hwhole)
    as [s [ac [bc [-> [Ha Hb]]]]].
  rewrite (list_messages_shown_online s _ _ _ _ _ _ _ _ _ _ _ _ Ha Hb)
    in Hwhole.
  apply Return_inj in Hwhole.
  exists (map (fun page =>
                 shown_of (Online s) include_context context_before
                   context_after
                   (LIMIT_OFFSET limit (page * limit)
                      (selection s ac bc sender_phone_number chat_jid query)))
            (pages k)).
  assert (Hcat :
            concat
              (map (fun page =>
                      shown_of (Online s) include_context context_before
                        context_after
                        (LIMIT_OFFSET limit (page * limit)
                           (selection s ac bc sender_phone_number chat_jid
                              query)))
                 (pages k)) = whole).
  { rewrite <- (map_map (fun page => LIMIT_OFFSET limit (page * limit) _)
                  (shown_of (Online s) include_context context_before
                     context_after)).
    rewrite shown_of_concat, LIMIT_OFFSET_pages by exact Hlimit.
    exact Hwhole. }
  split; [| split; [exact Hcat | split]].
  - apply Forall2_map_graph. intros page.
    pose proof (list_messages_shown_online s after before sender_phone_number
                  chat_jid query limit page include_context context_before
                  context_after ac bc Ha Hb) as Hpage.
    split; [exact Hpage |].
    rewrite list_messages_formats_shown, Hpage. reflexivity.
  - rewrite list_messages_formats_shown.
    rewrite (list_messages_shown_online s _ _ _ _ _ _ _ _ _ _ _ _ Ha Hb).
    rewrite Hwhole. reflexivity.
  - intros Hall. rewrite <- Hcat. apply texts_concat; [| exact Hall].
    unfold pages. discriminate.
Qed.

End ListMessagesPages.

Section PaginationExamples.
Import Calendar.
Local Open Scope list_scope.

Lemma pagination_concatenates_witness :
  exists pages_out,
    Forall2
      (fun page out =>
         list_messages_shown (Online Sample.store) None None None None None
           2 page true 1 1 = Return out
         /\ list_messages (Online Sample.store) None None None None None
              2 page true 1 1
            = Return (Text (format_messages_list (Online Sample.store) out true)))
      (pages 1) pages_out
    /\ concat pages_out
       = [Sample.m2; Sample.m3; Sample.m1; Sample.m2; Sample.m3;
          Sample.m1; Sample.m2].
Proof.
  destruct (pagination_concatenates (Online Sample.store) None true "name"
              None None None None None true 1 1 2 1) as [_ Hmessages].
  - lia.
  - destruct (Hmessages [Sample.m2; Sample.m3; Sample.m1; Sample.m2; Sample.m3;
                         Sample.m1; Sample.m2])
      as [pages_out [HF [Hcat _]]].
    + vm_compute. reflexivity.
    + exists pages_out. split; [exact HF | exact Hcat].
Defined.

(** One message matches; page 1 of size 1 is empty and is rendered as the
    placeholder, which the single page of size 2 does not contain. *)
Lemma list_messages_pages_texts_differ :
  list_messages (Online Sample.store) None None None None (Some "LUNCH")
    1 0 false 1 1
  = Return (Text ("[Family] Bob (2024-03-01 10:01:00) : lunch?" ++ newline)%string)
  /\ list_messages (Online Sample.store) None None None None (Some "LUNCH")
       1 1 false 1 1
     = Return (Text "No messages to display.")
  /\ list_messages (Online Sample.store) None None None None (Some "LUNCH")
       (1 * Z.of_nat 2) 0 false 1 1
     = Return (Text ("[Family] Bob (2024-03-01 10:01:00) : lunch?" ++ newline)%string)
  /\ (("[Family] Bob (2024-03-01 10:01:00) : lunch?" ++ newline)
        ++ "No messages to display.")%string
     <> ("[Family] Bob (2024-03-01 10:01:00) : lunch?" ++ newline)%string.
Proof. repeat split. discriminate. Qed.

End PaginationExamples.

(* ================================================================== *)
(** ** Page size *)

Section PageSize.
Context {DT : DateTime}.

(** C4, amended. [list_messages] and [list_chats] hand [limit] to the store
    as given: for [limit >= 0] a call returns at most [limit] primary rows,
    with no cap at 100.  Only the tool [get_recent_whatsapp_messages] of the
    older server clamps the requested size into [1 .. 100]. *)
Theorem page_size_follows_limit (db : database)
    (after before sender_phone_number chat_jid query : option string)
    (chat_query : option string) (include_last_message : bool)
    (sort_by : string) (limit page : Z) :
  0 <= limit ->
  (forall result,
     list_messages_result db after before sender_phone_number chat_jid query
       limit page = Return result ->
     (length result <= Z.to_nat limit)%nat)
  /\ (exists out,
        list_chats db chat_query limit page include_last_message sort_by
        = Return out
        /\ (length out <= Z.to_nat limit)%nat)
  /\ (forall requested,
        (length (get_recent_whatsapp_messages db requested) <= 100)%nat).
Proof.
  intros Hlimit. split; [| split].
  - intros result Hres.
    destruct (list_messages_result_inv _ _ _ _ _ _ _ _ _ Hres)
      as [s [ac [bc [_ [_ [_ ->]]]]]].
    apply LIMIT_OFFSET_length, Hlimit.
  - destruct db as [| | s].
    + exists []. split; [reflexivity | simpl; lia].
    + exists []. split; [reflexivity | simpl; lia].
    + eexists. split; [apply list_chats_online |].
      rewrite length_map. apply LIMIT_OFFSET_length, Hlimit.
  - intros requested. unfold get_recent_whatsapp_messages, get_recent_messages.
    destruct db as [| | s]; simpl; try lia.
    rewrite LIMIT_length by lia. lia.
Qed.

End PageSize.

Lemma page_size_follows_limit_witness :
  rows_returned
    (list_chats (Online Sample.crowd) None 7 0 true "name") = Some 7%nat
  /\ (length (get_recent_whatsapp_messages (Online Sample.crowd) 1000) <= 100)%nat.
Proof.
  split; [vm_compute; reflexivity |].
  destruct (page_size_follows_limit (DT := Calendar.naive)
              (Online Sample.crowd) None None None None None None true "name"
              7 0) as [_ [_ Hold]].
  - lia.
  - apply Hold.
Defined.

(** A call asking for 1000 rows gets all 101 rows of the store. *)
Lemma limit_above_100_is_honoured :
  rows_returned
    (list_messages_result (DT := Calendar.naive) (Online Sample.crowd)
       None None None None None 1000 0) = Some 101%nat
  /\ rows_returned
       (list_chats (Online Sample.crowd) None 1000 0 true "last_active")
     = Some 101%nat.
Proof. split; vm_compute; reflexivity. Qed.

(* ================================================================== *)
(** ** Chat listing with an unknown [sort_by] *)




(* ================================================================== *)
(** ** [LIKE] and containment *)

Lemma lower_char_idempotent (c : ascii) : lower_char (lower_char c) = lower_char c.
Proof. destruct c as [[] [] [] [] [] [] [] []]; reflexivity. Qed.

Lemma lower_char_percent (c : ascii) :
  (lower_char c =? "%")%char = (c =? "%")%char.
Proof. destruct c as [[] [] [] [] [] [] [] []]; reflexivity. Qed.

Lemma lower_char_underscore (c : ascii) :
  (lower_char c =? "_")%char = (c =? "_")%char.
Proof. destruct c as [[] [] [] [] [] [] [] []]; reflexivity. Qed.

Lemma LOWER_idempotent (s : string) : LOWER (LOWER s) = LOWER s.
Proof.
  unfold LOWER. induction s as [|c s IH]; simpl; [reflexivity |].
  rewrite lower_char_idempotent, IH. reflexivity.
Qed.

Lemma LOWER_append (a b : string) : LOWER (a ++ b) = (LOWER a ++ LOWER b)%string.
Proof.
  unfold LOWER. induction a as [|c a IH]; simpl; [reflexivity |].
  rewrite IH. reflexivity.
Qed.

Lemma LOWER_contains_pattern (query : string) :
  LOWER (contains_pattern query) = contains_pattern (LOWER query).
Proof.
  unfold contains_pattern. rewrite !LOWER_append. reflexivity.
Qed.

Lemma has_wildcard_LOWER (query : string) :
  has_wildcard (LOWER query) = has_wildcard query.
Proof.
  unfold LOWER. induction query as [|c query IH]; simpl; [reflexivity |].
  rewrite lower_char_percent, lower_char_underscore, IH. reflexivity.
Qed.

Lemma after_any_run_true (rest : string -> bool) (subject : string) :
  (forall s, rest s = true) -> after_any_run rest subject = true.
Proof. intros H. destruct subject; simpl; rewrite H; reflexivity. Qed.

(** A pattern that is only [%] matches everything. *)
Lemma LIKE_from_percent (subject : string) : LIKE_from "%" subject = true.
Proof.
  simpl. induction subject as [|c subject IH]; simpl; [reflexivity |].
  rewrite IH. reflexivity.
Qed.

(** Without wildcards in [query], [query%] matches the texts that begin with
    [query], up to case. *)
Lemma LIKE_from_prefix (query subject : string) :
  has_wildcard query = false ->
  LIKE_from (query ++ "%") subject = prefix (LOWER query) (LOWER subject).
Proof.
  revert subject. induction query as [|c query IH]; intros subject Hw.
  - change (LIKE_from "%" subject = prefix "" (LOWER subject)).
    rewrite LIKE_from_percent. destruct (LOWER subject); reflexivity.
  - simpl in Hw. apply orb_false_iff in Hw. destruct Hw as [Hc Hw].
    apply orb_false_iff in Hc. destruct Hc as [Hp Hu].
    simpl. rewrite Hp.
    destruct subject as [|d subject]; [reflexivity |].
    rewrite Hu. simpl. rewrite (IH subject Hw).
    destruct (ascii_dec (lower_char c) (lower_char d)) as [E | E].
    + rewrite E, Ascii.eqb_refl. reflexivity.
    + apply Ascii.eqb_neq in E. rewrite E. reflexivity.
Qed.

(** Without wildcards in [query], [%query%] matches the texts that contain
    [query], up to case. *)
Lemma LIKE_contains (query subject : string) :
  has_wildcard query = false ->
  LIKE subject (contains_pattern query) = contains_ignoring_case query subject.
Proof.
  intros Hw. unfold LIKE, contains_pattern, contains_ignoring_case. simpl.
  induction subject as [|d subject IH]; simpl.
  - rewrite (LIKE_from_prefix query "" Hw). reflexivity.
  - rewrite (LIKE_from_prefix query (String d subject) Hw), IH. reflexivity.
Qed.

Lemma LIKE_LOWER_contains (query subject : string) :
  has_wildcard query = false ->
  LIKE (LOWER subject) (LOWER (contains_pattern query))
  = contains_ignoring_case query subject.
Proof.
  intros Hw. rewrite LOWER_contains_pattern, LIKE_contains.
  - unfold contains_ignoring_case. rewrite !LOWER_idempotent. reflexivity.
  - rewrite has_wildcard_LOWER. exact Hw.
Qed.

Lemma contact_matches_contains (query : string) (c : Contact.t) :
  has_wildcard query = false ->
  contact_matches query c = name_or_phone_contains query c.
Proof.
  intros Hw. unfold contact_matches, name_or_phone_contains.
  rewrite (LIKE_contains query _ Hw).
  destruct (Contact.name c) as [name |]; cbn [LIKE_null option_map];
    [| reflexivity].
  rewrite (LIKE_LOWER_contains query name Hw). reflexivity.
Qed.

(* ================================================================== *)
(** ** Contact search *)

Lemma ascii_compare_refl (a : ascii) : (a ?= a)%char = Eq.
Proof. unfold Ascii.compare. apply N.compare_refl. Qed.

Lemma ascii_compare_lt_trans (a b c : ascii) :
  (a ?= b)%char = Lt -> (b ?= c)%char = Lt -> (a ?= c)%char = Lt.
Proof.
  unfold Ascii.compare. rewrite !N.compare_lt_iff. apply N.lt_trans.
Qed.

Lemma string_leb_trans (a b c : string) :
  (a <=? b)%string = true -> (b <=? c)%string = true ->
  (a <=? c)%string = true.
Proof.
  unfold String.leb. revert b c.
  induction a as [|x a IH]; intros [|y b] [|z c]; simpl; try congruence.
  destruct (x ?= y)%char eqn:Exy; try discriminate;
    destruct (y ?= z)%char eqn:Eyz; try discriminate.
  - apply Ascii.compare_eq_iff in Exy, Eyz. subst.
    rewrite ascii_compare_refl. apply IH.
  - apply Ascii.compare_eq_iff in Exy. subst. rewrite Eyz. reflexivity.
  - apply Ascii.compare_eq_iff in Eyz. subst. rewrite Exy. reflexivity.
  - rewrite (ascii_compare_lt_trans x y z Exy Eyz). reflexivity.
Qed.

Lemma contact_name_asc_total (x y : Contact.t) :
  contact_name_asc x y = true \/ contact_name_asc y x = true.
Proof.
  unfold contact_name_asc, null_le.
  destruct (Contact.name x), (Contact.name y); auto.
  apply String.leb_total.
Qed.

Lemma contact_name_asc_trans (x y z : Contact.t) :
  contact_name_asc x y = true -> contact_name_asc y z = true ->
  contact_name_asc x z = true.
Proof.
  unfold contact_name_asc, null_le.
  destruct (Contact.name x), (Contact.name y), (Contact.name z);
    auto; try discriminate.
  apply string_leb_trans.
Qed.

Lemma search_contacts_online (s : Store) (query : string) :
  search_contacts (Online s) query
  = Return
      (LIMIT 50
         (ORDER_BY contact_name_asc (filter (contact_matches query) (contacts s)))).
Proof. reflexivity. Qed.

(** C8, amended. For every query without the wildcard characters [%] and
    [_], [search_contacts] returns the contacts whose name contains the query
    or whose phone number contains the query, both up to the case of A-Z (the
    two tests are joined by OR), in ascending order of name with nameless
    contacts first, cut after the first 50. *)
Theorem search_contacts_by_containment (s : Store) (query : string) :
  has_wildcard query = false ->
  exists found,
    search_contacts (Online s) query = Return found
    /\ found
       = firstn 50
           (ORDER_BY contact_name_asc
              (filter (name_or_phone_contains query) (contacts s)))
    /\ (forall c,
          In c found ->
          In c (contacts s) /\ name_or_phone_contains query c = true)
    /\ StronglySorted by_name found
    /\ length found
       = Nat.min 50
           (length (filter (name_or_phone_contains query) (contacts s)))
    /\ ((length (filter (name_or_phone_contains query) (contacts s)) <= 50)%nat ->
        Permutation found
          (filter (name_or_phone_contains query) (contacts s))).
Proof.
  intros Hw.
  assert (Hfilter : filter (contact_matches query) (contacts s)
                    = filter (name_or_phone_contains query) (contacts s)).
  { apply filter_ext. intros c. apply contact_matches_contains, Hw. }
  eexists. split; [apply search_contacts_online |].
  rewrite Hfilter. change (LIMIT 50 ?l) with (firstn 50 l).
  split; [reflexivity |]. split; [| split; [| split]].
  - intros c Hc.
    assert (Hin : In c (ORDER_BY contact_name_asc
                          (filter (name_or_phone_contains query) (contacts s)))).
    { rewrite <- (firstn_skipn 50 (ORDER_BY _ _)).
      apply in_or_app; left; exact Hc. }
    apply ORDER_BY_In in Hin. apply filter_In in Hin. exact Hin.
  - apply firstn_sorted. unfold by_name.
    apply (ORDER_BY_sorted contact_name_asc).
    + apply contact_name_asc_total.
    + apply contact_name_asc_trans.
  - rewrite length_firstn, ORDER_BY_length. reflexivity.
  - intros Hlen. rewrite firstn_all2 by (rewrite ORDER_BY_length; exact Hlen).
    apply ORDER_BY_perm.
Qed.

Lemma search_contacts_by_containment_witness :
  search_contacts (Online Sample.store) "ANA" = Return [Sample.ana]
  /\ rows_returned (search_contacts (Online Sample.crowd) "an") = Some 50%nat.
Proof.
  split.
  - destruct (search_contacts_by_containment Sample.store "ANA")
      as [found [Hfound [Heq _]]].
    + reflexivity.
    + rewrite Hfound, Heq. reflexivity.
  - vm_compute. reflexivity.
Defined.

(** The query [%] finds a contact whose name and phone number do not contain
    that character, and the query [flowers] finds one whose phone number is
    written in capitals. *)
Lemma search_contacts_reads_wildcards :
  search_contacts (Online Sample.store) "%"
    = Return [Sample.shop; Sample.ana; Sample.bob]
  /\ name_or_phone_contains "%" Sample.bob = false
  /\ contains "%" (Contact.phone_number Sample.bob) = false
  /\ search_contacts (Online Sample.store) "flowers" = Return [Sample.shop]
  /\ Contact.name Sample.shop = None
  /\ contains "flowers" (Contact.phone_number Sample.shop) = false.
Proof. repeat split. Qed.

(* ================================================================== *)
(** ** Presentation formatter *)

Section FormatterFacts.
Context {DT : DateTime}.
Local Open Scope list_scope.

(** X1. [get_sender_name] never fails: it gives back either the identifier
    it was asked about or the non-empty name of a stored contact whose [jid]
    or [phone_number] is that identifier. *)
Theorem get_sender_name_is_contact_or_raw (db : database) (sender_jid : string) :
  get_sender_name db sender_jid = sender_jid
  \/ exists s c,
       db = Online s
       /\ In c (contacts s)
       /\ (Contact.jid c = sender_jid \/ Contact.phone_number c = sender_jid)
       /\ Contact.name c = Some (get_sender_name db sender_jid)
       /\ get_sender_name db sender_jid <> ""%string.
Proof.
  unfold get_sender_name.
  destruct db as [| | s]; simpl; [left; reflexivity | left; reflexivity |].
  destruct (filter _ (contacts s)) as [|c l] eqn:E; simpl;
    [left; reflexivity |].
  assert (Hc : In c (c :: l)) by (left; reflexivity).
  rewrite <- E in Hc. apply filter_In in Hc. destruct Hc as [Hin Hmatch].
  destruct (Contact.name c) as [name |] eqn:En; [| left; reflexivity].
  destruct (truthy name) eqn:Ht; [| left; reflexivity].
  right. exists s, c. repeat split.
  - exact Hin.
  - apply orb_true_iff in Hmatch.
    destruct Hmatch as [H | H]; apply String.eqb_eq in H; auto.
  - exact En.
  - intros ->. discriminate Ht.
Qed.

(** X2. Without a contact carrying the identifier as [jid] or
    [phone_number], and whenever the store cannot be read,
    [get_sender_name] gives the identifier back unchanged. *)
Theorem get_sender_name_unknown_sender (db : database) (sender_jid : string) :
  (forall s c,
     db = Online s -> In c (contacts s) ->
     Contact.jid c <> sender_jid /\ Contact.phone_number c <> sender_jid) ->
  get_sender_name db sender_jid = sender_jid.
Proof.
  intros Hnone. unfold get_sender_name.
  destruct db as [| | s]; simpl; [reflexivity | reflexivity |].
  rewrite filter_none; [reflexivity |].
  intros c Hc. destruct (Hnone s c eq_refl Hc) as [Hj Hp].
  apply String.eqb_neq in Hj. apply String.eqb_neq in Hp.
  rewrite Hj, Hp. reflexivity.
Qed.

Lemma concat_sep_last (sep : string) (parts : list string) (last : string) :
  parts <> [] ->
  String.concat sep (parts ++ [last])
  = (String.concat sep parts ++ sep ++ last)%string.
Proof.
  induction parts as [|p parts IH]; [congruence |]. intros _.
  destruct parts as [|q parts].
  - simpl. reflexivity.
  - change (String.concat sep ((p :: q :: parts) ++ [last]))
      with (p ++ sep ++ String.concat sep ((q :: parts) ++ [last]))%string.
    rewrite IH by discriminate.
    change (String.concat sep (p :: q :: parts))
      with (p ++ sep ++ String.concat sep (q :: parts))%string.
    rewrite !append_assoc. reflexivity.
Qed.

Lemma format_message_tail (db : database) (message : Message.t)
    (show_chat_info : bool) :
  exists head,
    format_message db message show_chat_info
    = (head ++ " : " ++ Message.content message ++ newline)%string.
Proof.
  unfold format_message.
  set (chat_part := match Message.chat_name message with
                    | Some chat_name =>
                        if show_chat_info && truthy chat_name
                        then [("[" ++ chat_name ++ "]")%string] else []
                    | None => []
                    end).
  set (who_part := if Message.is_from_me message
                   then [("You (" ++ strftime (Message.timestamp message)
                            ++ ")")%string]
                   else [(get_sender_name db (Message.sender message) ++ " ("
                            ++ strftime (Message.timestamp message)
                            ++ ")")%string]).
  set (media_part := match Message.media_type message with
                     | Some media_type =>
                         if truthy media_type
                         then [("[" ++ upper media_type ++ "]")%string] else []
                     | None => []
                     end).
  exists (String.concat " " (chat_part ++ who_part ++ media_part)).
  rewrite (app_assoc chat_part), (app_assoc (chat_part ++ who_part)).
  rewrite concat_sep_last.
  - rewrite <- app_assoc. rewrite !append_assoc. reflexivity.
  - unfold who_part. intros H. apply app_eq_nil in H. destruct H as [H _].
    apply app_eq_nil in H. destruct H as [_ H].
    destruct (Message.is_from_me message); discriminate.
Qed.

(** X3. Every formatted line ends with a space, a colon, a space, the
    content of the message and one newline, whatever precedes them. *)
Theorem format_message_ends_with_content (db : database) (message : Message.t)
    (show_chat_info : bool) :
  exists head,
    format_message db message show_chat_info
    = (head ++ " : " ++ Message.content message ++ newline)%string.
Proof. apply format_message_tail. Qed.

(** X4. A message sent by the user is rendered as "You": with the chat tag
    off the line begins with "You (", and neither the sender field nor the
    state of the store has any influence on it. *)
Theorem format_message_own_message (db db' : database)
    (timestamp : Z) (sender sender' content chat_jid id : string)
    (chat_name media_type : option string) (show_chat_info : bool) :
  format_message db
    (Message.mk timestamp sender content true chat_jid id chat_name media_type)
    show_chat_info
  = format_message db'
      (Message.mk timestamp sender' content true chat_jid id chat_name media_type)
      show_chat_info
  /\ exists rest,
       format_message db
         (Message.mk timestamp sender content true chat_jid id chat_name
            media_type) false
       = ("You (" ++ strftime timestamp ++ ")" ++ rest)%string.
Proof.
  split; [reflexivity |].
  unfold format_message. simpl.
  destruct chat_name as [chat_name |]; simpl;
    destruct media_type as [media_type |]; simpl;
    try destruct (truthy media_type); simpl;
    eexists; rewrite !append_assoc; reflexivity.
Qed.

Lemma fold_left_format (db : database) (show_chat_info : bool)
    (l : list Message.t) (acc : string) :
  fold_left
    (fun output message =>
       (output ++ format_message db message show_chat_info)%string) l acc
  = (acc
     ++ fold_left
          (fun output message =>
             (output ++ format_message db message show_chat_info)%string)
          l "")%string.
Proof.
  revert acc. induction l as [|m l IH]; intros acc; simpl.
  - rewrite append_empty_r. reflexivity.
  - rewrite IH. rewrite (IH (format_message db m show_chat_info)).
    rewrite append_assoc. reflexivity.
Qed.

Lemma fold_left_format_app (db : database) (show_chat_info : bool)
    (l1 l2 : list Message.t) :
  fold_left
    (fun output message =>
       (output ++ format_message db message show_chat_info)%string)
    (l1 ++ l2) ""
  = (fold_left
       (fun output message =>
          (output ++ format_message db message show_chat_info)%string) l1 ""
     ++ fold_left
          (fun output message =>
             (output ++ format_message db message show_chat_info)%string)
          l2 "")%string.
Proof. rewrite fold_left_app. apply fold_left_format. Qed.

Lemma fold_left_format_ends_with_newline (db : database)
    (show_chat_info : bool) (l : list Message.t) :
  l <> [] ->
  exists head,
    fold_left
      (fun output message =>
         (output ++ format_message db message show_chat_info)%string) l ""
    = (head ++ newline)%string.
Proof.
  intros Hne.
  destruct (exists_last Hne) as [l' [m ->]].
  rewrite fold_left_format_app. simpl.
  destruct (format_message_tail db m show_chat_info) as [head Hm].
  eexists. rewrite Hm. rewrite <- !append_assoc. reflexivity.
Qed.

Lemma newline_terminated_is_not_placeholder (x : string) :
  (x ++ newline)%string <> "No messages to display."%string.
Proof.
  change newline with (String "010"%char ""). intros H.
  repeat (destruct x as [|? x]; simpl in H;
          [discriminate H | injection H as _ H]).
  destruct x; simpl in H; discriminate H.
Qed.

(** X5. The text for a list of messages is "No messages to display." exactly
    when the list is empty: the text of a non-empty list ends with a newline
    and can never be taken for the placeholder. *)
Theorem format_messages_list_placeholder_iff (db : database)
    (messages : list Message.t) (show_chat_info : bool) :
  format_messages_list db messages show_chat_info
    = "No messages to display."%string
  <-> messages = [].
Proof.
  split.
  - intros H. destruct messages as [|m l]; [reflexivity |]. exfalso.
    unfold format_messages_list in H.
    destruct (fold_left_format_ends_with_newline db show_chat_info (m :: l))
      as [head Hhead]; [discriminate |].
    rewrite Hhead in H.
    apply (newline_terminated_is_not_placeholder head H).
  - intros ->. reflexivity.
Qed.

(** X6. Formatting distributes over concatenation of non-empty lists: the
    text of [l1 ++ l2] is the text of [l1] followed by the text of [l2]. *)
Theorem format_messages_list_app (db : database) (l1 l2 : list Message.t)
    (show_chat_info : bool) :
  l1 <> [] -> l2 <> [] ->
  format_messages_list db (l1 ++ l2) show_chat_info
  = (format_messages_list db l1 show_chat_info
     ++ format_messages_list db l2 show_chat_info)%string.
Proof.
  intros H1 H2. unfold format_messages_list.
  destruct l1 as [|m1 l1]; [congruence |].
  destruct l2 as [|m2 l2]; [congruence |].
  rewrite <- app_comm_cons. apply (fold_left_format_app db show_chat_info
                                     (m1 :: l1) (m2 :: l2)).
Qed.

End FormatterFacts.

Lemma get_sender_name_unknown_sender_witness :
  get_sender_name (Online Sample.store) "4242" = "4242"%string.
Proof.
  apply get_sender_name_unknown_sender.
  intros s c E Hc. apply Online_inj in E. subst s.
  destruct Hc as [<- | [<- | [<- | []]]]; split; discriminate.
Defined.

Lemma format_messages_list_app_witness :
  format_messages_list (DT := Calendar.naive) (Online Sample.store)
    ([Sample.m1] ++ [Sample.m2; Sample.m3]) true
  = (format_messages_list (DT := Calendar.naive) (Online Sample.store)
       [Sample.m1] true
     ++ format_messages_list (DT := Calendar.naive) (Online Sample.store)
          [Sample.m2; Sample.m3] true)%string.
Proof.
  apply (format_messages_list_app (DT := Calendar.naive)); discriminate.
Defined.

(* ================================================================== *)
(** ** More on the relational engine *)

Section DistinctFacts.
Context {A : Type}.
Variable eqb : A -> A -> bool.
Hypothesis eqb_spec : forall x y, eqb x y = true <-> x = y.

Lemma DISTINCT_In (x : A) (l : list A) : In x (DISTINCT eqb l) <-> In x l.
Proof.
  induction l as [|a l IH]; simpl; [tauto |]. split.
  - intros [E | H]; [left; exact E |].
    apply filter_In in H. right. apply IH, H.
  - intros [E | H]; [left; exact E |].
    destruct (eqb a x) eqn:Eax.
    + left. apply eqb_spec, Eax.
    + right. apply filter_In. split; [apply IH, H |]. rewrite Eax. reflexivity.
Qed.

Lemma DISTINCT_NoDup (l : list A) : NoDup (DISTINCT eqb l).
Proof.
  induction l as [|a l IH]; simpl; constructor.
  - intros H. apply filter_In in H. destruct H as [_ H].
    rewrite (proj2 (eqb_spec a a) eq_refl) in H. discriminate.
  - apply NoDup_filter, IH.
Qed.
End DistinctFacts.

Section WindowFacts.
Context {A : Type}.

Lemma skipn_sorted (R : A -> A -> Prop) (n : nat) (l : list A) :
  StronglySorted R l -> StronglySorted R (skipn n l).
Proof.
  intros H. revert n. induction H as [|x l Hl IH Hx]; intros [|n]; simpl.
  - constructor.
  - constructor.
  - constructor; assumption.
  - apply IH.
Qed.

Lemma LIMIT_OFFSET_sorted (R : A -> A -> Prop) (n k : Z) (l : list A) :
  StronglySorted R l -> StronglySorted R (LIMIT_OFFSET n k l).
Proof. intros H. apply LIMIT_sorted, skipn_sorted, H. Qed.




(** In an ordered list every row of a front part stands before every row of
    the rest. *)
Lemma sorted_app_cross (R : A -> A -> Prop) (l1 l2 : list A) (x y : A) :
  StronglySorted R (l1 ++ l2) -> In x l1 -> In y l2 -> R x y.
Proof.
  induction l1 as [|a l1 IH]; simpl; intros Hs Hx Hy; [destruct Hx |].
  inversion Hs as [|a' l' Hl Ha]; subst.
  destruct Hx as [-> | Hx].
  - rewrite Forall_forall in Ha. apply Ha, in_or_app. right. exact Hy.
  - apply IH; assumption.
Qed.
End WindowFacts.

Lemma null_le_Z_total (a b : option Z) :
  null_le Z.leb a b = true \/ null_le Z.leb b a = true.
Proof.
  destruct a as [x |], b as [y |]; simpl; auto.
  rewrite !Z.leb_le. lia.
Qed.

Lemma null_le_Z_trans (a b c : option Z) :
  null_le Z.leb a b = true -> null_le Z.leb b c = true ->
  null_le Z.leb a c = true.
Proof.
  destruct a as [x |], b as [y |], c as [z |]; simpl; auto; try discriminate.
  rewrite !Z.leb_le. lia.
Qed.

Lemma last_message_time_desc_total (x y : Chat.t) :
  last_message_time_desc x y = true \/ last_message_time_desc y x = true.
Proof.
  unfold last_message_time_desc.
  destruct (null_le_Z_total (Chat.last_message_time x)
              (Chat.last_message_time y)); auto.
Qed.

Lemma last_message_time_desc_trans (x y z : Chat.t) :
  last_message_time_desc x y = true -> last_message_time_desc y z = true ->
  last_message_time_desc x z = true.
Proof.
  unfold last_message_time_desc. intros H1 H2.
  apply (null_le_Z_trans _ _ _ H2 H1).
Qed.

Lemma option_eqb_spec {A : Type} (eqb : A -> A -> bool) :
  (forall x y, eqb x y = true <-> x = y) ->
  forall x y, option_eqb eqb x y = true <-> x = y.
Proof.
  intros H [a |] [b |]; simpl; split; intros E; try discriminate;
    try reflexivity.
  - f_equal. apply H, E.
  - injection E as E. apply H, E.
Qed.

Lemma bool_eqb_spec (x y : bool) : Bool.eqb x y = true <-> x = y.
Proof. destruct x, y; simpl; split; intros H; congruence. Qed.

Lemma chat_eqb_spec (x y : Chat.t) : chat_eqb x y = true <-> x = y.
Proof.
  unfold chat_eqb. rewrite !andb_true_iff.
  rewrite String.eqb_eq.
  rewrite !(option_eqb_spec String.eqb String.eqb_eq).
  rewrite (option_eqb_spec Z.eqb Z.eqb_eq).
  rewrite (option_eqb_spec Bool.eqb bool_eqb_spec).
  destruct x, y; simpl. split.
  - intros [[[[[-> ->] ->] ->] ->] ->]. reflexivity.
  - intros E. injection E as -> -> -> -> -> ->. repeat split.
Qed.

(* ================================================================== *)
(** ** Group detection *)

Lemma endswith_spec (s suffix : string) :
  endswith s suffix = true <-> exists p, s = (p ++ suffix)%string.
Proof.
  split.
  - induction s as [|c s IH]; cbn [endswith].
    + rewrite orb_false_r. intros H. apply String.eqb_eq in H.
      exists ""%string. exact H.
    + intros H. apply orb_true_iff in H. destruct H as [H | H].
      * apply String.eqb_eq in H. exists ""%string. exact H.
      * destruct (IH H) as [p ->]. exists (String c p). reflexivity.
  - intros [p ->]. induction p as [|c p IH].
    + change (endswith suffix suffix = true).
      destruct suffix; cbn [endswith]; rewrite String.eqb_refl; reflexivity.
    + change (endswith (String c (p ++ suffix)) suffix = true).
      cbn [endswith]. rewrite IH. apply orb_true_r.
Qed.

(** X7. A chat is a group exactly when its [jid] is some text followed by
    "@g.us". *)
Theorem is_group_iff_suffix (c : Chat.t) :
  is_group c = true <-> exists p, Chat.jid c = (p ++ "@g.us")%string.
Proof. unfold is_group. apply endswith_spec. Qed.

(* ================================================================== *)
(** ** Chats of a contact *)

Lemma get_contact_chats_online (s : Store) (jid : string) (limit page : Z) :
  get_contact_chats (Online s) jid limit page
  = Return
      (LIMIT_OFFSET limit (page * limit)
         (ORDER_BY last_message_time_desc
            (DISTINCT chat_eqb (chats_join_messages s jid)))).
Proof. reflexivity. Qed.

Lemma chats_join_messages_In (s : Store) (jid : string) (c : Chat.t) :
  In c (chats_join_messages s jid) <->
  In c (chats s)
  /\ exists m,
       In m (messages s)
       /\ MessageRow.chat_jid m = Chat.jid c
       /\ (MessageRow.sender m = jid \/ Chat.jid c = jid).
Proof.
  unfold chats_join_messages. rewrite in_flat_map. split.
  - intros [c0 [Hc0 H]]. apply in_map_iff in H.
    destruct H as [m [-> Hm]]. apply filter_In in Hm.
    destruct Hm as [Hm Hcond]. apply andb_true_iff in Hcond.
    destruct Hcond as [Hj Hor]. apply String.eqb_eq in Hj.
    split; [exact Hc0 |]. exists m. split; [exact Hm |].
    split; [symmetry; exact Hj |].
    apply orb_true_iff in Hor.
    destruct Hor as [H | H]; apply String.eqb_eq in H; auto.
  - intros [Hc [m [Hm [Hj Hor]]]]. exists c. split; [exact Hc |].
    apply in_map_iff. exists m. split; [reflexivity |].
    apply filter_In. split; [exact Hm |].
    apply andb_true_iff. split.
    + apply String.eqb_eq. symmetry. exact Hj.
    + apply orb_true_iff.
      destruct Hor as [H | H]; [left | right]; apply String.eqb_eq, H.
Qed.

Lemma get_contact_chats_rows_In (s : Store) (jid : string) (c : Chat.t) :
  In c (ORDER_BY last_message_time_desc
          (DISTINCT chat_eqb (chats_join_messages s jid)))
  <-> In c (chats_join_messages s jid).
Proof.
  rewrite ORDER_BY_In. apply DISTINCT_In, chat_eqb_spec.
Qed.



(** X9. With page 0 and a [limit] no smaller than the number of stored
    chats, [get_contact_chats] returns every stored chat that holds a message
    sent by the given identifier or that carries the identifier and holds
    some message. *)
Theorem get_contact_chats_complete (s : Store) (jid : string) (limit : Z)
    (c : Chat.t) (m : MessageRow.t) :
  (length (chats s) <= Z.to_nat limit)%nat ->
  In c (chats s) -> In m (messages s) ->
  MessageRow.chat_jid m = Chat.jid c ->
  MessageRow.sender m = jid \/ Chat.jid c = jid ->
  exists out,
    get_contact_chats (Online s) jid limit 0 = Return out /\ In c out.
Proof.
  intros Hlen Hc Hm Hj Hor.
  eexists. split; [apply get_contact_chats_online |].
  unfold LIMIT_OFFSET. rewrite Z.mul_0_l. simpl skipn.
  rewrite LIMIT_all.
  - apply get_contact_chats_rows_In, chats_join_messages_In.
    split; [exact Hc |]. exists m. auto.
  - rewrite ORDER_BY_length.
    etransitivity; [| exact Hlen].
    apply NoDup_incl_length.
    + apply DISTINCT_NoDup, chat_eqb_spec.
    + intros x Hx.
      apply (proj1 (DISTINCT_In chat_eqb chat_eqb_spec x _)) in Hx.
      apply chats_join_messages_In in Hx. apply Hx.
Qed.

Lemma get_contact_chats_complete_witness :
  exists out,
    get_contact_chats (Online Directory.store) "555" 20 0 = Return out
    /\ In Directory.family out.
Proof.
  apply (get_contact_chats_complete Directory.store "555" 20 Directory.family
           (MessageRow.mk Directory.t1 "555" "hello" false "120@g.us" "D1" None)).
  - simpl. lia.
  - simpl. tauto.
  - simpl. tauto.
  - reflexivity.
  - left. reflexivity.
Defined.

(** X10. A chat without any message is invisible to [get_contact_chats]:
    when no stored message was sent by the identifier or lies in a chat
    carrying it, the result is empty, whatever the [chats] table holds. *)
Theorem get_contact_chats_needs_a_message (s : Store) (jid : string)
    (limit page : Z) :
  (forall m,
     In m (messages s) ->
     MessageRow.sender m <> jid /\ MessageRow.chat_jid m <> jid) ->
  get_contact_chats (Online s) jid limit page = Return [].
Proof.
  intros Hnone. rewrite get_contact_chats_online.
  assert (E : chats_join_messages s jid = []).
  { destruct (chats_join_messages s jid) as [|c l] eqn:E; [reflexivity |].
    assert (Hc : In c (c :: l)) by (left; reflexivity).
    rewrite <- E in Hc. apply chats_join_messages_In in Hc.
    destruct Hc as [_ [m [Hm [Hj Hor]]]].
    destruct (Hnone m Hm) as [Hs Hcj].
    destruct Hor as [H | H]; [contradiction | congruence]. }
  rewrite E. simpl. rewrite LIMIT_OFFSET_nil. reflexivity.
Qed.

Lemma get_contact_chats_needs_a_message_witness :
  In Directory.silent_chat (chats Directory.store)
  /\ get_contact_chats (Online Directory.store) "999@s.whatsapp.net" 20 0
     = Return [].
Proof.
  split; [simpl; tauto |].
  apply get_contact_chats_needs_a_message.
  intros m [<- | [<- | [<- | [<- | []]]]]; split; discriminate.
Defined.

(** X11. Pages of [get_contact_chats]: for [limit > 0] the lists returned for
    pages [0 .. k], side by side, are the list returned for page 0 with page
    size [limit * (k + 1)]. *)
Theorem get_contact_chats_pages (db : database) (jid : string) (limit : Z)
    (k : nat) :
  0 < limit ->
  exists pages_out whole,
    Forall2
      (fun page out => get_contact_chats db jid limit page = Return out)
      (pages k) pages_out
    /\ get_contact_chats db jid (limit * Z.of_nat (S k)) 0 = Return whole
    /\ concat pages_out = whole.
Proof.
  intros Hlimit. destruct db as [| | s].
  - exists (map (fun _ => []) (pages k)), []. split; [| split].
    + apply Forall2_map_graph. reflexivity.
    + reflexivity.
    + apply concat_repeat_nil.
  - exists (map (fun _ => []) (pages k)), []. split; [| split].
    + apply Forall2_map_graph. reflexivity.
    + reflexivity.
    + apply concat_repeat_nil.
  - eexists (map _ (pages k)), _. split; [| split].
    + apply Forall2_map_graph. intros page. apply get_contact_chats_online.
    + apply get_contact_chats_online.
    + apply LIMIT_OFFSET_pages, Hlimit.
Qed.

Lemma get_contact_chats_pages_witness :
  exists pages_out,
    Forall2
      (fun page out =>
         get_contact_chats (Online Directory.store) "555" 1 page = Return out)
      (pages 1) pages_out
    /\ concat pages_out = [Directory.ana_chat; Directory.family].
Proof.
  destruct (get_contact_chats_pages (Online Directory.store) "555" 1 1)
    as [pages_out [whole [HF [Hwhole Hcat]]]].
  - lia.
  - exists pages_out. split; [exact HF |].
    rewrite Hcat. vm_compute in Hwhole. apply Return_inj in Hwhole.
    symmetry. exact Hwhole.
Defined.

(* ================================================================== *)
(** ** Chat lookup *)

Lemma select_chat_jid (include_last_message : bool) (c : Chat.t) :
  Chat.jid (select_chat include_last_message c) = Chat.jid c.
Proof. destruct include_last_message; reflexivity. Qed.

Lemma get_chat_online (s : Store) (chat_jid : string)
    (include_last_message : bool) :
  get_chat (Online s) chat_jid include_last_message
  = Return
      (fetchone
         (map (select_chat include_last_message)
            (filter (fun c => (Chat.jid c =? chat_jid)%string) (chats s)))).
Proof.
  unfold get_chat. simpl.
  destruct (fetchone _); reflexivity.
Qed.


Lemma fetchone_filter_unique {A : Type} (key : A -> string) (l : list A)
    (x : A) :
  NoDup (map key l) -> In x l ->
  fetchone (filter (fun y => (key y =? key x)%string) l) = Some x.
Proof.
  intros Hnd Hx.
  assert (Hin : In x (filter (fun y => (key y =? key x)%string) l)).
  { apply filter_In. split; [exact Hx | apply String.eqb_refl]. }
  destruct (filter _ l) as [|y l'] eqn:E; [destruct Hin |].
  assert (Hy : In y (y :: l')) by (left; reflexivity).
  rewrite <- E in Hy. apply filter_In in Hy. destruct Hy as [Hy Hk].
  apply String.eqb_eq in Hk. simpl. f_equal.
  apply (NoDup_map_In_inj key l); assumption.
Qed.

Lemma chat_order_In (sort_by : string) (l : list Chat.t) (c : Chat.t) :
  In c (chat_order sort_by l) <-> In c l.
Proof.
  unfold chat_order.
  destruct (sort_by =? "last_active")%string; [apply ORDER_BY_In |].
  destruct (sort_by =? "name")%string; [apply ORDER_BY_In | tauto].
Qed.

Lemma list_chats_In (s : Store) (query : option string) (limit page : Z)
    (include_last_message : bool) (sort_by : string) (out : list Chat.t)
    (chat : Chat.t) :
  list_chats (Online s) query limit page include_last_message sort_by
    = Return out ->
  In chat out ->
  exists c,
    In c (chats s) /\ chat_matches query c = true
    /\ chat = select_chat include_last_message c.
Proof.
  rewrite list_chats_online. intros H Hin. apply Return_inj in H. subst out.
  apply in_map_iff in Hin. destruct Hin as [c [<- Hc]].
  apply LIMIT_OFFSET_incl in Hc. apply chat_order_In in Hc.
  apply filter_In in Hc. exists c. tauto.
Qed.

(** X13. Where the [jid]s of the stored chats are pairwise distinct, every
    chat listed by [list_chats] is found again, unchanged, by [get_chat]
    under its [jid] (with the same [include_last_message]). *)
Theorem get_chat_finds_listed_chat (s : Store) (query : option string)
    (limit page : Z) (include_last_message : bool) (sort_by : string)
    (out : list Chat.t) (chat : Chat.t) :
  NoDup (map Chat.jid (chats s)) ->
  list_chats (Online s) query limit page include_last_message sort_by
    = Return out ->
  In chat out ->
  get_chat (Online s) (Chat.jid chat) include_last_message
  = Return (Some chat).
Proof.
  intros Hnd Hlist Hin.
  destruct (list_chats_In s query limit page include_last_message sort_by
              out chat Hlist Hin) as [c [Hc [_ ->]]].
  rewrite get_chat_online, select_chat_jid.
  pose proof (fetchone_filter_unique Chat.jid (chats s) c Hnd Hc) as Hf.
  unfold fetchone in *.
  destruct (filter _ (chats s)) as [|y l]; simpl in *; [discriminate |].
  injection Hf as ->. reflexivity.
Qed.

Lemma get_chat_finds_listed_chat_witness :
  get_chat (Online Directory.store) "777@s.whatsapp.net" false
  = Return (Some (select_chat false Directory.bob_chat)).
Proof.
  apply (get_chat_finds_listed_chat Directory.store (Some "BOB") 5 0 false
           "name" [select_chat false Directory.bob_chat]
           (select_chat false Directory.bob_chat)).
  - simpl. repeat constructor; simpl; intuition discriminate.
  - vm_compute. reflexivity.
  - left. reflexivity.
Defined.

(* ================================================================== *)
(** ** Direct chat of a contact *)

Lemma length_append (a b : string) :
  String.length (a ++ b) = (String.length a + String.length b)%nat.
Proof. induction a as [|c a IH]; simpl; [reflexivity | rewrite IH; reflexivity]. Qed.

(** Two ways of cutting one text leave the same tail when the tails are
    equally long. *)
Lemma append_same_length_suffix (p p' a b : string) :
  String.length a = String.length b ->
  (p ++ a)%string = (p' ++ b)%string -> a = b.
Proof.
  revert p'. induction p as [|c p IH]; intros [|c' p'] Hlen H; simpl in H.
  - exact H.
  - exfalso. apply (f_equal String.length) in H. simpl in H.
    rewrite length_append in H. lia.
  - exfalso. apply (f_equal String.length) in H. simpl in H.
    rewrite length_append in H. lia.
  - injection H as _ H. apply (IH p' Hlen H).
Qed.

Lemma has_wildcard_false_cons (c : ascii) (q : string) :
  has_wildcard (String c q) = false ->
  (c =? "%")%char = false /\ (c =? "_")%char = false /\ has_wildcard q = false.
Proof.
  simpl. intros H. apply orb_false_iff in H. destruct H as [H Hq].
  apply orb_false_iff in H. tauto.
Qed.

(** Without wildcards a pattern matches the texts equal to it up to case. *)
Lemma LIKE_from_exact (q s : string) :
  has_wildcard q = false ->
  LIKE_from q s = (LOWER s =? LOWER q)%string.
Proof.
  revert s. induction q as [|c q IH]; intros s Hw.
  - destruct s; reflexivity.
  - destruct (has_wildcard_false_cons c q Hw) as [Hp [Hu Hq]].
    cbn [LIKE_from]. rewrite Hp.
    destruct s as [|d s]; [reflexivity |].
    rewrite Hu, (IH s Hq). simpl.
    rewrite (Ascii.eqb_sym (lower_char d)). reflexivity.
Qed.

(** Without wildcards in [q], [%q] matches the texts that end with [q], up
    to case. *)
Lemma LIKE_suffix (q s : string) :
  has_wildcard q = false ->
  LIKE s ("%" ++ q) = endswith (LOWER s) (LOWER q).
Proof.
  intros Hw. unfold LIKE. cbn [append LIKE_from]. simpl Ascii.eqb. cbv iota.
  induction s as [|d s IH]; cbn [after_any_run endswith LOWER map_string].
  - rewrite (LIKE_from_exact q "" Hw). reflexivity.
  - rewrite (LIKE_from_exact q (String d s) Hw). fold (LOWER s).
    rewrite IH. reflexivity.
Qed.

Lemma fetchone_first_distinct {A B : Type} (eqb : B -> B -> bool)
    (f : A -> B) (l : list A) :
  fetchone (LIMIT 1 (DISTINCT eqb (map f l))) = option_map f (fetchone l).
Proof. destruct l as [|x l]; reflexivity. Qed.

(** The message whose chat the lookup follows: the first one, in store
    order, sent by the number in a one-to-one conversation. *)
Lemma get_direct_chat_online (s : Store) (sender_phone_number : string) :
  get_direct_chat_by_contact (Online s) sender_phone_number
  = Return
      match
        fetchone
          (filter
             (fun m =>
                (MessageRow.sender m =? sender_phone_number)%string
                && LIKE (MessageRow.chat_jid m) direct_chat_pattern)
             (messages s))
      with
      | None => None
      | Some m =>
          fetchone
            (filter (fun c => (Chat.jid c =? MessageRow.chat_jid m)%string)
               (chats s))
      end.
Proof.
  unfold get_direct_chat_by_contact. simpl.
  rewrite fetchone_first_distinct.
  destruct (fetchone (filter _ (messages s))) as [m |]; simpl;
    [| reflexivity].
  destruct (fetchone (filter _ (chats s))); reflexivity.
Qed.

Lemma direct_jid_is_no_group (jid : string) :
  LIKE jid direct_chat_pattern = true -> endswith jid "@g.us" = false.
Proof.
  intros Hlike.
  change direct_chat_pattern with ("%" ++ "@s.whatsapp.net")%string in Hlike.
  rewrite LIKE_suffix in Hlike by reflexivity.
  apply endswith_spec in Hlike. destruct Hlike as [p Hp].
  destruct (endswith jid "@g.us") eqn:E; [| reflexivity]. exfalso.
  apply endswith_spec in E. destruct E as [p' ->].
  rewrite LOWER_append in Hp.
  change (LOWER "@s.whatsapp.net") with ("@s.whatsap" ++ "p.net")%string in Hp.
  rewrite <- append_assoc in Hp.
  apply append_same_length_suffix in Hp; [discriminate Hp | reflexivity].
Qed.

(** X14. A chat returned by [get_direct_chat_by_contact] is never a group:
    its [jid] ends with "@s.whatsapp.net" (up to the case of letters), it is
    a stored chat, and a stored message sent by the given number lies in
    it. *)
Theorem get_direct_chat_is_direct (db : database)
    (sender_phone_number : string) (chat : Chat.t) :
  get_direct_chat_by_contact db sender_phone_number = Return (Some chat) ->
  is_group chat = false
  /\ endswith (LOWER (Chat.jid chat)) "@s.whatsapp.net" = true
  /\ exists s m,
       db = Online s /\ In chat (chats s) /\ In m (messages s)
       /\ MessageRow.sender m = sender_phone_number
       /\ MessageRow.chat_jid m = Chat.jid chat.
Proof.
  destruct db as [| | s]; [discriminate | discriminate |].
  rewrite get_direct_chat_online. intros H. apply Return_inj in H.
  destruct (filter _ (messages s)) as [|m l] eqn:Em; [discriminate |].
  simpl in H.
  assert (Hm : In m (m :: l)) by (left; reflexivity).
  rewrite <- Em in Hm. apply filter_In in Hm. destruct Hm as [Hm Hcond].
  apply andb_true_iff in Hcond. destruct Hcond as [Hs Hlike].
  apply String.eqb_eq in Hs.
  destruct (filter _ (chats s)) as [|c l'] eqn:Ec; [discriminate |].
  simpl in H. injection H as ->.
  assert (Hc : In chat (chat :: l')) by (left; reflexivity).
  rewrite <- Ec in Hc. apply filter_In in Hc. destruct Hc as [Hc Hj].
  apply String.eqb_eq in Hj. rewrite <- Hj in Hlike.
  split; [| split].
  - unfold is_group. apply direct_jid_is_no_group, Hlike.
  - change direct_chat_pattern with ("%" ++ "@s.whatsapp.net")%string in Hlike.
    rewrite LIKE_suffix in Hlike by reflexivity. exact Hlike.
  - exists s, m. auto.
Qed.

Lemma get_direct_chat_is_direct_witness :
  is_group Directory.ana_chat = false.
Proof.
  apply (get_direct_chat_is_direct (Online Directory.store) "555").
  reflexivity.
Defined.

(** X15. A number that has sent no message in a one-to-one conversation has
    no direct chat for [get_direct_chat_by_contact], whatever the [chats]
    table holds. *)
Theorem get_direct_chat_needs_a_message (s : Store)
    (sender_phone_number : string) :
  (forall m,
     In m (messages s) ->
     MessageRow.sender m = sender_phone_number ->
     LIKE (MessageRow.chat_jid m) direct_chat_pattern = false) ->
  get_direct_chat_by_contact (Online s) sender_phone_number = Return None.
Proof.
  intros Hnone. rewrite get_direct_chat_online.
  rewrite filter_none; [reflexivity |].
  intros m Hm.
  destruct (MessageRow.sender m =? sender_phone_number)%string eqn:E;
    [| reflexivity].
  apply String.eqb_eq in E. rewrite (Hnone m Hm E). reflexivity.
Qed.

Lemma get_direct_chat_needs_a_message_witness :
  In Directory.bob_chat (chats Directory.store)
  /\ get_direct_chat_by_contact (Online Directory.store) "777" = Return None.
Proof.
  split; [simpl; tauto |].
  apply get_direct_chat_needs_a_message.
  intros m [<- | [<- | [<- | [<- | []]]]]; simpl; intros E;
    try discriminate E; reflexivity.
Defined.

(** X16. What [get_direct_chat_by_contact] returns is what [get_chat] returns
    for the [jid] of that chat, last message included. *)
Theorem get_direct_chat_agrees_with_get_chat (s : Store)
    (sender_phone_number : string) (chat : Chat.t) :
  get_direct_chat_by_contact (Online s) sender_phone_number
    = Return (Some chat) ->
  get_chat (Online s) (Chat.jid chat) true = Return (Some chat).
Proof.
  rewrite get_direct_chat_online, get_chat_online.
  intros H. apply Return_inj in H.
  destruct (fetchone (filter _ (messages s))) as [m |]; [| discriminate].
  assert (Hj : Chat.jid chat = MessageRow.chat_jid m).
  { destruct (filter _ (chats s)) as [|c l] eqn:Ec; [discriminate |].
    simpl in H. injection H as ->.
    assert (Hc : In chat (chat :: l)) by (left; reflexivity).
    rewrite <- Ec in Hc. apply filter_In in Hc.
    apply String.eqb_eq, Hc. }
  rewrite Hj. unfold select_chat. rewrite map_id. f_equal. exact H.
Qed.

Lemma get_direct_chat_agrees_with_get_chat_witness :
  get_chat (Online Directory.store) (Chat.jid Directory.ana_chat) true
  = Return (Some Directory.ana_chat).
Proof.
  apply (get_direct_chat_agrees_with_get_chat Directory.store "555").
  reflexivity.
Defined.

(* ================================================================== *)
(** ** Last interaction *)

Section LastInteractionFacts.
Context {DT : DateTime}.
Local Open Scope list_scope.

(** X17. On a readable store [get_last_interaction] answers
    "No messages found for <jid>" exactly when no stored message has the
    identifier as sender or as conversation; otherwise it formats a message
    involving the identifier whose timestamp no other such message exceeds,
    with the identifier as [chat_jid] and without media tag. *)
Theorem get_last_interaction_most_recent (s : Store)
    (error_text jid : string) :
  (Forall (fun m => involves jid m = false) (messages_with_chat_name s)
   /\ get_last_interaction (Online s) error_text jid
      = ("No messages found for " ++ jid)%string)
  \/ exists m,
       In m (messages_with_chat_name s)
       /\ involves jid m = true
       /\ (forall m',
             In m' (messages_with_chat_name s) -> involves jid m' = true ->
             Message.timestamp m' <= Message.timestamp m)
       /\ get_last_interaction (Online s) error_text jid
          = format_message (Online s) (last_interaction_message jid m) true.
Proof.
  unfold get_last_interaction. simpl.
  pose proof (ORDER_BY_sorted timestamp_desc timestamp_desc_total
                timestamp_desc_trans
                (filter (involves jid) (messages_with_chat_name s))) as Hsorted.
  pose proof (fun x => ORDER_BY_In timestamp_desc x
                (filter (involves jid) (messages_with_chat_name s))) as Hin.
  destruct (ORDER_BY timestamp_desc
              (filter (involves jid) (messages_with_chat_name s)))
    as [|m l] eqn:E.
  - left. split; [| reflexivity].
    apply Forall_forall. intros x Hx.
    destruct (involves jid x) eqn:Ex; [| reflexivity].
    exfalso. apply (proj2 (Hin x)). apply filter_In. split; assumption.
  - right. exists m.
    assert (Hm : In m (filter (involves jid) (messages_with_chat_name s)))
      by (apply Hin; left; reflexivity).
    apply filter_In in Hm. destruct Hm as [Hm Hinv].
    split; [exact Hm |]. split; [exact Hinv |]. split; [| reflexivity].
    intros m' Hm' Hinv'.
    assert (H' : In m' (m :: l))
      by (apply Hin, filter_In; split; assumption).
    destruct H' as [<- | H']; [lia |].
    inversion Hsorted as [|a l' _ Hall]; subst.
    rewrite Forall_forall in Hall. specialize (Hall m' H').
    unfold timestamp_desc in Hall. apply Z.leb_le in Hall. exact Hall.
Qed.

End LastInteractionFacts.

(* ================================================================== *)
(** ** Ordering and filters of the listings *)

Lemma chat_name_asc_total (x y : Chat.t) :
  chat_name_asc x y = true \/ chat_name_asc y x = true.
Proof.
  unfold chat_name_asc, null_le.
  destruct (Chat.name x), (Chat.name y); auto.
  apply String.leb_total.
Qed.

Lemma chat_name_asc_trans (x y z : Chat.t) :
  chat_name_asc x y = true -> chat_name_asc y z = true ->
  chat_name_asc x z = true.
Proof.
  unfold chat_name_asc, null_le.
  destruct (Chat.name x), (Chat.name y), (Chat.name z);
    auto; try discriminate.
  apply string_leb_trans.
Qed.

Lemma sorted_map {A B : Type} (R : A -> A -> Prop) (R' : B -> B -> Prop)
    (f : A -> B) (l : list A) :
  (forall x y, R x y -> R' (f x) (f y)) ->
  StronglySorted R l -> StronglySorted R' (map f l).
Proof.
  intros H. induction 1 as [|x l Hl IH Hx]; simpl; constructor.
  - exact IH.
  - apply Forall_map. eapply Forall_impl; [| exact Hx]. intros y. apply H.
Qed.

(** X18. [list_chats] returns only stored chats that pass the name filter;
    with [sort_by = "last_active"] they come in descending order of
    [last_message_time], chats without one last, and with [sort_by = "name"]
    in ascending order of [name], chats without a name first. *)
Theorem list_chats_ordered (s : Store) (query : option string)
    (limit page : Z) (include_last_message : bool) (sort_by : string) :
  exists out,
    list_chats (Online s) query limit page include_last_message sort_by
      = Return out
    /\ (forall chat,
          In chat out ->
          exists c,
            In c (chats s) /\ chat_matches query c = true
            /\ chat = select_chat include_last_message c)
    /\ (sort_by = "last_active"%string ->
        StronglySorted (fun x y => last_message_time_desc x y = true) out)
    /\ (sort_by = "name"%string ->
        StronglySorted (fun x y => chat_name_asc x y = true) out).
Proof.
  eexists. split; [apply list_chats_online |]. split; [| split].
  - intros chat Hin.
    apply (list_chats_In s query limit page include_last_message sort_by
             _ chat (list_chats_online _ _ _ _ _ _) Hin).
  - intros ->. unfold chat_order. simpl.
    apply sorted_map with (R := fun x y => last_message_time_desc x y = true).
    + intros x y. destruct include_last_message; auto.
    + apply LIMIT_OFFSET_sorted, ORDER_BY_sorted.
      * apply last_message_time_desc_total.
      * apply last_message_time_desc_trans.
  - intros ->. unfold chat_order. simpl.
    apply sorted_map with (R := fun x y => chat_name_asc x y = true).
    + intros x y. destruct include_last_message; auto.
    + apply LIMIT_OFFSET_sorted, ORDER_BY_sorted.
      * apply chat_name_asc_total.
      * apply chat_name_asc_trans.
Qed.

Lemma list_chats_ordered_witness :
  exists out,
    list_chats (Online Directory.store) None 10 0 true "last_active"
      = Return out
    /\ StronglySorted (fun x y => last_message_time_desc x y = true) out.
Proof.
  destruct (list_chats_ordered Directory.store None 10 0 true "last_active")
    as [out [Hout [_ [Hsorted _]]]].
  exists out. split; [exact Hout | apply Hsorted; reflexivity].
Defined.

Section ListMessagesFilters.
Context {DT : DateTime}.
Local Open Scope list_scope.

Lemma optional_clause_In (mk_clause : string -> clause)
    (value : option string) (v : string) :
  value = Some v -> truthy v = true ->
  In (mk_clause v) (optional_clause mk_clause value).
Proof. intros -> Ht. unfold optional_clause. rewrite Ht. left. reflexivity. Qed.

(** X19. The rows [list_messages] selects come newest first, and each of
    them has exactly the sender asked for, lies in exactly the chat asked
    for, and (for a query without [%] and [_]) contains the query in its
    content up to the case of letters, whenever the corresponding criterion
    is supplied and non-empty. *)
Theorem list_messages_result_meets_filters (db : database)
    (after before sender_phone_number chat_jid query : option string)
    (limit page : Z) (result : list Message.t) :
  list_messages_result db after before sender_phone_number chat_jid query
    limit page = Return result ->
  StronglySorted
    (fun x y => Message.timestamp y <= Message.timestamp x) result
  /\ (forall v,
        sender_phone_number = Some v -> truthy v = true ->
        Forall (fun m => Message.sender m = v) result)
  /\ (forall v,
        chat_jid = Some v -> truthy v = true ->
        Forall (fun m => Message.chat_jid m = v) result)
  /\ (forall v,
        query = Some v -> truthy v = true -> has_wildcard v = false ->
        Forall (fun m => contains_ignoring_case v (Message.content m) = true)
          result).
Proof.
  intros Hres.
  destruct (list_messages_result_inv _ _ _ _ _ _ _ _ _ Hres)
    as [s [ac [bc [_ [_ [_ ->]]]]]].
  assert (Hholds : forall m c,
            In m (LIMIT_OFFSET limit (page * limit)
                    (selection s ac bc sender_phone_number chat_jid query)) ->
            In c (optional_clause sender_eq sender_phone_number
                    ++ optional_clause chat_jid_eq chat_jid
                    ++ optional_clause
                         (fun q => content_like (contains_pattern q)) query) ->
            holds m c = true).
  { intros m c Hm Hc. apply LIMIT_OFFSET_incl in Hm.
    unfold selection in Hm. apply ORDER_BY_In in Hm.
    apply filter_In in Hm. destruct Hm as [_ Hw].
    unfold WHERE in Hw. rewrite forallb_forall in Hw. apply Hw.
    apply in_or_app; right. apply in_or_app; right. exact Hc. }
  split; [| split; [| split]].
  - apply sorted_impl with (R := fun x y => timestamp_desc x y = true).
    + intros x y. unfold timestamp_desc. apply Z.leb_le.
    + apply LIMIT_OFFSET_sorted. unfold selection. apply ORDER_BY_sorted.
      * apply timestamp_desc_total.
      * apply timestamp_desc_trans.
  - intros v Hv Ht. apply Forall_forall. intros m Hm.
    apply String.eqb_eq.
    apply (Hholds m (sender_eq v) Hm).
    apply in_or_app; left. apply optional_clause_In; assumption.
  - intros v Hv Ht. apply Forall_forall. intros m Hm.
    apply String.eqb_eq.
    apply (Hholds m (chat_jid_eq v) Hm).
    apply in_or_app; right. apply in_or_app; left.
    apply optional_clause_In; assumption.
  - intros v Hv Ht Hw. apply Forall_forall. intros m Hm.
    rewrite <- (LIKE_LOWER_contains v (Message.content m) Hw).
    apply (Hholds m (content_like (contains_pattern v)) Hm).
    apply in_or_app; right. apply in_or_app; right.
    apply (optional_clause_In (fun q => content_like (contains_pattern q)));
      assumption.
Qed.

End ListMessagesFilters.

Lemma list_messages_result_meets_filters_witness :
  Forall (fun m => Message.sender m = "555"%string) [Sample.m3; Sample.m1].
Proof.
  destruct (list_messages_result_meets_filters (DT := Calendar.naive)
              (Online Sample.store) None None (Some "555") None None 20 0
              [Sample.m3; Sample.m1]) as [_ [Hsender _]].
  - vm_compute. reflexivity.
  - apply (Hsender "555"); reflexivity.
Defined.

(* ================================================================== *)
(** ** Behaviour on a store that cannot be read *)

Section StoreFailure.
Context {DT : DateTime}.

(** X20. When the store cannot be opened or read, no operation lets the
    database error escape except [get_message_context], which re-raises it:
    the listings and searches return an empty list, the lookups return
    nothing, [get_sender_name] falls back to the identifier,
    [get_last_interaction] answers with the error text, and [list_messages]
    returns the empty list instead of a text (also for a malformed time
    bound when the connection itself fails). *)
Theorem unreadable_store_behaviour (db : database)
    (after before sender_phone_number chat_jid query : option string)
    (limit page : Z) (include_context include_last_message : bool)
    (context_before context_after : Z) (sort_by text error_text : string)
    (after_clause before_clause : list clause) :
  (forall s, db <> Online s) ->
  list_chats db query limit page include_last_message sort_by = Return []
  /\ search_contacts db text = Return []
  /\ get_contact_chats db text limit page = Return []
  /\ get_chat db text include_last_message = Return None
  /\ get_direct_chat_by_contact db text = Return None
  /\ get_message_context db text context_before context_after
     = Raise SqliteError
  /\ get_sender_name db text = text
  /\ get_last_interaction db error_text text
     = ("Error getting last interaction: " ++ error_text)%string
  /\ list_messages Unavailable after before sender_phone_number chat_jid
       query limit page include_context context_before context_after
     = Return EmptyList
  /\ (time_clause "after" timestamp_gt after = Return after_clause ->
      time_clause "before" timestamp_lt before = Return before_clause ->
      list_messages db after before sender_phone_number chat_jid query
        limit page include_context context_before context_after
      = Return EmptyList).
Proof.
  intros Hdb.
  destruct db as [| | s]; [| | exfalso; apply (Hdb s); reflexivity].
  - repeat (split; [reflexivity |]). intros Ha Hb. reflexivity.
  - repeat (split; [reflexivity |]). intros Ha Hb.
    unfold list_messages, list_messages_result. rewrite Ha, Hb. reflexivity.
Qed.

End StoreFailure.

Lemma unreadable_store_behaviour_witness :
  list_messages (DT := Calendar.naive) Unreadable (Some "2024-03-01") None
    None None None 20 0 true 1 1 = Return EmptyList
  /\ get_message_context Unreadable "A1" 1 1 = Raise SqliteError.
Proof.
  destruct (unreadable_store_behaviour (DT := Calendar.naive) Unreadable
              (Some "2024-03-01") None None None None 20 0 true true 1 1
              "name" "A1" "e" [timestamp_gt 65058336000] [])
    as [_ [_ [_ [_ [_ [Hctx [_ [_ [_ Hlist]]]]]]]]].
  - discriminate.
  - split; [apply Hlist; reflexivity | exact Hctx].
Defined.

(* ================================================================== *)
(** ** The window is made of the nearest messages *)


Lemma LIMIT_keeps_front {A : Type} (R : A -> A -> Prop) (n : Z)
    (l : list A) (x y : A) :
  StronglySorted R l -> In x (LIMIT n l) -> In y l -> ~ R x y ->
  In y (LIMIT n l).
Proof.
  unfold LIMIT. destruct (n <? 0); [auto |].
  intros Hs Hx Hy Hnot.
  rewrite <- (firstn_skipn (Z.to_nat n) l) in Hs, Hy.
  apply in_app_or in Hy. destruct Hy as [Hy | Hy]; [exact Hy |].
  exfalso. apply Hnot. apply (sorted_app_cross R _ _ x y Hs Hx Hy).
Qed.



(* ================================================================== *)
(** ** More on contact search *)

Lemma filter_all {A : Type} (f : A -> bool) (l : list A) :
  (forall x, In x l -> f x = true) -> filter f l = l.
Proof.
  induction l as [|x l IH]; intros H; simpl; [reflexivity |].
  rewrite (H x) by (left; reflexivity). f_equal.
  apply IH. intros y Hy. apply H. right. exact Hy.
Qed.

Lemma LIKE_double_percent (subject : string) : LIKE subject "%%" = true.
Proof.
  unfold LIKE. cbn [LIKE_from]. simpl Ascii.eqb. cbv iota.
  apply after_any_run_true. intros s. apply (LIKE_from_percent s).
Qed.

(** X22. An empty query matches every contact: [search_contacts] then returns
    the first 50 contacts of the store in ascending order of name. *)
Theorem search_contacts_empty_query (s : Store) :
  search_contacts (Online s) ""
  = Return (firstn 50 (ORDER_BY contact_name_asc (contacts s))).
Proof.
  rewrite search_contacts_online. rewrite filter_all; [reflexivity |].
  intros c _. unfold contact_matches.
  change (contains_pattern "") with "%%"%string.
  rewrite LIKE_double_percent. apply orb_true_r.
Qed.

(** X23. Whatever the query, wildcards included, [search_contacts] never
    raises and returns at most 50 contacts, all of them stored contacts
    matched by the [LIKE] test on name or phone number, in ascending order of
    name (contacts without a name first). *)
Theorem search_contacts_bounded (db : database) (query : string) :
  exists found,
    search_contacts db query = Return found
    /\ (length found <= 50)%nat
    /\ StronglySorted by_name found
    /\ forall c,
         In c found ->
         exists s,
           db = Online s /\ In c (contacts s) /\ contact_matches query c = true.
Proof.
  destruct db as [| | s].
  - exists []. split; [reflexivity |].
    split; [simpl; lia | split; [constructor | intros c []]].
  - exists []. split; [reflexivity |].
    split; [simpl; lia | split; [constructor | intros c []]].
  - eexists. split; [apply search_contacts_online |].
    split; [| split].
    + rewrite LIMIT_length by lia. apply Nat.le_min_l.
    + apply LIMIT_sorted. unfold by_name.
      apply (ORDER_BY_sorted contact_name_asc).
      * apply contact_name_asc_total.
      * apply contact_name_asc_trans.
    + intros c Hc. apply LIMIT_incl in Hc. apply ORDER_BY_In in Hc.
      apply filter_In in Hc. exists s. tauto.
Qed.

(* ================================================================== *)
(** ** Recent messages of the older server *)

Lemma row_timestamp_desc_total (x y : MessageRow.t) :
  row_timestamp_desc x y = true \/ row_timestamp_desc y x = true.
Proof. unfold row_timestamp_desc. rewrite !Z.leb_le. lia. Qed.

Lemma row_timestamp_desc_trans (x y z : MessageRow.t) :
  row_timestamp_desc x y = true -> row_timestamp_desc y z = true ->
  row_timestamp_desc x z = true.
Proof. unfold row_timestamp_desc. rewrite !Z.leb_le. lia. Qed.

(** X24. On a readable store [get_recent_whatsapp_messages] returns the most
    recent stored messages, newest first: as many as requested after the
    request is brought into [1 .. 100] (or all of them when there are
    fewer), so at least one whenever the store holds a message, and never a
    message while a more recent one is left out. *)
Theorem get_recent_whatsapp_messages_newest (s : Store) (limit : Z) :
  length (get_recent_whatsapp_messages (Online s) limit)
  = Nat.min (Z.to_nat (Z.min (Z.max 1 limit) 100)) (length (messages s))
  /\ StronglySorted
       (fun x y => MessageRow.timestamp y <= MessageRow.timestamp x)
       (get_recent_whatsapp_messages (Online s) limit)
  /\ (forall x m,
        In x (get_recent_whatsapp_messages (Online s) limit) ->
        In m (messages s) ->
        MessageRow.timestamp x < MessageRow.timestamp m ->
        In m (get_recent_whatsapp_messages (Online s) limit))
  /\ (messages s <> [] -> get_recent_whatsapp_messages (Online s) limit <> []).
Proof.
  unfold get_recent_whatsapp_messages, get_recent_messages.
  assert (Hlen : length (LIMIT (Z.min (Z.max 1 limit) 100)
                           (ORDER_BY row_timestamp_desc (messages s)))
                 = Nat.min (Z.to_nat (Z.min (Z.max 1 limit) 100))
                     (length (messages s))).
  { rewrite LIMIT_length by lia. rewrite ORDER_BY_length. reflexivity. }
  assert (Hsorted : StronglySorted (fun a b => row_timestamp_desc a b = true)
                      (ORDER_BY row_timestamp_desc (messages s))).
  { apply ORDER_BY_sorted;
      [apply row_timestamp_desc_total | apply row_timestamp_desc_trans]. }
  split; [exact Hlen |]. split; [| split].
  - apply sorted_impl with (R := fun a b => row_timestamp_desc a b = true).
    + intros x y. unfold row_timestamp_desc. apply Z.leb_le.
    + apply LIMIT_sorted, Hsorted.
  - intros x m Hx Hm Hlt.
    apply (LIMIT_keeps_front (fun a b => row_timestamp_desc a b = true)
             _ _ x m Hsorted Hx).
    + apply ORDER_BY_In, Hm.
    + unfold row_timestamp_desc. rewrite Z.leb_le. lia.
  - intros Hne Hnil. rewrite Hnil in Hlen. simpl in Hlen.
    destruct (messages s) as [|r l]; [congruence |]. simpl in Hlen. lia.
Qed.

Lemma get_recent_whatsapp_messages_newest_witness :
  get_recent_whatsapp_messages (Online Sample.store) (-5) <> [].
Proof.
  apply (get_recent_whatsapp_messages_newest Sample.store (-5)).
  discriminate.
Defined.

(* ================================================================== *)
(** ** Only stored messages are shown *)

Section ShownFromStore.
Context {DT : DateTime}.
Local Open Scope list_scope.

Lemma window_of_incl (s : Store) (context_before context_after : Z)
    (msg : Message.t) :
  incl (window_of (Online s) context_before context_after msg)
    (messages_with_chat_name s).
Proof.
  unfold window_of.
  destruct (fetchone (filter (fun m => (Message.id m =? Message.id msg)%string)
                        (messages_with_chat_name s))) as [target |] eqn:E.
  - rewrite (get_message_context_found s _ context_before context_after
               target E).
    unfold window. simpl. intros x Hx.
    apply in_app_or in Hx. destruct Hx as [Hx | [Hx | Hx]].
    + apply in_rev in Hx. apply LIMIT_incl in Hx. apply ORDER_BY_In in Hx.
      apply filter_In in Hx. apply Hx.
    + subst x. unfold fetchone in E.
      destruct (filter _ (messages_with_chat_name s)) as [|y l] eqn:Ef;
        [discriminate |].
      simpl in E. injection E as ->.
      assert (Hy : In target (target :: l)) by (left; reflexivity).
      rewrite <- Ef in Hy. apply filter_In in Hy. apply Hy.
    + apply LIMIT_incl in Hx. apply ORDER_BY_In in Hx.
      apply filter_In in Hx. apply Hx.
  - unfold get_message_context. simpl. rewrite E. simpl. intros x [].
Qed.

(** X25. [list_messages] shows stored messages only: with or without
    context, every message it formats is a row of the [messages] table
    (joined with its chat name), and the text it returns is the formatting of
    exactly these messages. *)
Theorem list_messages_shows_stored_messages (db : database)
    (after before sender_phone_number chat_jid query : option string)
    (limit page : Z) (include_context : bool)
    (context_before context_after : Z) (shown : list Message.t) :
  list_messages_shown db after before sender_phone_number chat_jid query
    limit page include_context context_before context_after = Return shown ->
  (exists s, db = Online s /\ incl shown (messages_with_chat_name s))
  /\ list_messages db after before sender_phone_number chat_jid query
       limit page include_context context_before context_after
     = Return (Text (format_messages_list db shown true)).
Proof.
  intros Hshown. split.
  - destruct (list_messages_shown_inv _ _ _ _ _ _ _ _ _ _ _ _ Hshown)
      as [s [ac [bc [-> [Ha Hb]]]]].
    exists s. split; [reflexivity |].
    rewrite (list_messages_shown_online s _ _ _ _ _ _ _ _ _ _ _ _ Ha Hb)
      in Hshown.
    apply Return_inj in Hshown. subst shown.
    assert (Hrows : incl (LIMIT_OFFSET limit (page * limit)
                            (selection s ac bc sender_phone_number chat_jid
                               query))
                      (messages_with_chat_name s)).
    { intros m Hm. apply LIMIT_OFFSET_incl in Hm.
      apply selection_In in Hm. apply Hm. }
    unfold shown_of. destruct include_context; [| exact Hrows].
    intros x Hx. apply in_flat_map in Hx. destruct Hx as [msg [_ Hx]].
    apply (window_of_incl s context_before context_after msg x Hx).
  - rewrite list_messages_formats_shown, Hshown. reflexivity.
Qed.

End ShownFromStore.

Lemma list_messages_shows_stored_messages_witness :
  incl [Sample.m2; Sample.m3; Sample.m1; Sample.m2; Sample.m3]
    (messages_with_chat_name Sample.store).
Proof.
  destruct (list_messages_shows_stored_messages (DT := Calendar.naive)
              (Online Sample.store) (Some "2024-03-01 10:00:00") None None
              None None 20 0 true 1 1
              [Sample.m2; Sample.m3; Sample.m1; Sample.m2; Sample.m3])
    as [[s [E Hincl]] _].
  - vm_compute. reflexivity.
  - apply Online_inj in E. subst s. exact Hincl.
Defined.

(* ================================================================== *)
(** ** Outbound calls *)

Section BridgeFacts.
Variable post : request -> post_outcome.
Variable isfile : string -> bool.
Variable convert_to_opus_ogg_temp : string -> string + string.
Local Open Scope list_scope.

Lemma truthy_false_iff (s : string) : truthy s = false <-> s = ""%string.
Proof.
  unfold truthy. destruct s; simpl; split; intros H;
    try reflexivity; discriminate.
Qed.

Lemma truthy_true_iff (s : string) : truthy s = true <-> s <> ""%string.
Proof.
  unfold truthy. destruct s; simpl; split; intros H;
    try reflexivity; try discriminate. congruence.
Qed.

(** Success is reported only on the word of the bridge. *)
Lemma post_and_report_success (payload : list (string * string)) :
  fst (snd (post_and_report post payload)) = PyBool true ->
  exists text fields,
    post {| url := (WHATSAPP_API_BASE_URL ++ "/send")%string;
            payload := payload |}
    = Response 200 text (Decoded (Dict fields))
    /\ fields "success"%string = Some (PyBool true).
Proof.
  unfold post_and_report. simpl.
  destruct (post _) as [e | e | status_code text json]; simpl;
    try discriminate.
  destruct (Z.eqb_spec status_code 200) as [-> | Hne]; simpl;
    [| discriminate].
  destruct json as [[fields | e] | e | | e]; simpl; try discriminate.
  unfold dict_get. destruct (fields "success"%string) as [v |] eqn:E;
    [| discriminate].
  intros ->. exists text, fields. split; reflexivity || exact E.
Qed.

(** X26. [send_message] posts nothing for an empty recipient and answers
    (False, "Recipient must be provided"); otherwise it posts exactly one
    request, to the [/send] endpoint, carrying the recipient and the message.
    It reports success only when the bridge answered with status 200 and a
    decoded object whose "success" is true. *)
Theorem send_message_outcome (recipient message : string) :
  (recipient = ""%string ->
   send_message post recipient message
   = ([], (PyBool false, PyStr "Recipient must be provided")))
  /\ (recipient <> ""%string ->
      fst (send_message post recipient message)
      = [ {| url := "http://localhost:8080/api/send";
             payload := [("recipient", recipient); ("message", message)]%string |} ])
  /\ (fst (snd (send_message post recipient message)) = PyBool true ->
      recipient <> ""%string
      /\ exists text fields,
           post {| url := "http://localhost:8080/api/send";
                   payload := [("recipient", recipient);
                               ("message", message)]%string |}
           = Response 200 text (Decoded (Dict fields))
           /\ fields "success"%string = Some (PyBool true)).
Proof.
  unfold send_message. split; [| split].
  - intros ->. reflexivity.
  - intros Hne. apply truthy_true_iff in Hne. rewrite Hne. reflexivity.
  - destruct (truthy recipient) eqn:Ht; simpl; [| discriminate].
    intros H. split; [apply truthy_true_iff, Ht |].
    apply (post_and_report_success _ H).
Qed.

(** X27. [send_file] checks, in this order, that the recipient is not empty,
    that the media path is not empty and that the path is a file; when a
    check fails nothing is posted and the answer is a failure, and the answer
    is a success only when all three hold and the bridge answered with
    status 200 and "success" true. *)
Theorem send_file_validation (recipient media_path : string) :
  (recipient = ""%string \/ media_path = ""%string
   \/ isfile media_path = false ->
   fst (send_file post isfile recipient media_path) = []
   /\ fst (snd (send_file post isfile recipient media_path)) = PyBool false)
  /\ (recipient <> ""%string -> media_path = ""%string ->
      snd (snd (send_file post isfile recipient media_path))
      = PyStr "Media path must be provided")
  /\ (fst (snd (send_file post isfile recipient media_path)) = PyBool true ->
      recipient <> ""%string /\ media_path <> ""%string
      /\ isfile media_path = true
      /\ exists text fields,
           post {| url := "http://localhost:8080/api/send";
                   payload := [("recipient", recipient);
                               ("media_path", media_path)]%string |}
           = Response 200 text (Decoded (Dict fields))
           /\ fields "success"%string = Some (PyBool true)).
Proof.
  unfold send_file. split; [| split].
  - intros H.
    destruct (truthy recipient) eqn:Hr; simpl; [| split; reflexivity].
    destruct (truthy media_path) eqn:Hp; simpl; [| split; reflexivity].
    destruct (isfile media_path) eqn:Hf; simpl; [| split; reflexivity].
    apply truthy_true_iff in Hr, Hp.
    destruct H as [H | [H | H]]; [contradiction | contradiction | discriminate].
  - intros Hr ->. apply truthy_true_iff in Hr. rewrite Hr. reflexivity.
  - destruct (truthy recipient) eqn:Hr; simpl; [| discriminate].
    destruct (truthy media_path) eqn:Hp; simpl; [| discriminate].
    destruct (isfile media_path) eqn:Hf; simpl; [| discriminate].
    intros H. apply truthy_true_iff in Hr, Hp.
    repeat split; try assumption.
    apply (post_and_report_success _ H).
Qed.

(** X28. For a path ending in ".ogg", [send_audio_message] is [send_file]:
    same requests, same answer, and the converter is not used. *)
Theorem send_audio_message_ogg (recipient media_path : string) :
  endswith media_path ".ogg" = true ->
  send_audio_message post isfile convert_to_opus_ogg_temp recipient media_path
  = send_file post isfile recipient media_path.
Proof.
  intros Hogg. unfold send_audio_message, send_file.
  rewrite Hogg. simpl.
  destruct (truthy recipient), (truthy media_path), (isfile media_path);
    reflexivity.
Qed.

(** X29. For an existing file whose path does not end in ".ogg",
    [send_audio_message] converts it first: when the converter fails nothing
    is posted and the answer carries the converter's error, and when it
    yields a path the requests and the answer are those of posting that
    path. *)
Theorem send_audio_message_converts (recipient media_path : string) :
  recipient <> ""%string -> media_path <> ""%string ->
  isfile media_path = true -> endswith media_path ".ogg" = false ->
  match convert_to_opus_ogg_temp media_path with
  | inr e =>
      send_audio_message post isfile convert_to_opus_ogg_temp recipient
        media_path
      = ([],
         (PyBool false,
          PyStr ("Error converting file to opus ogg. You likely need to install ffmpeg: "
                 ++ e)))
  | inl converted =>
      send_audio_message post isfile convert_to_opus_ogg_temp recipient
        media_path
      = post_and_report post
          [("recipient", recipient); ("media_path", converted)]%string
      /\ (converted <> ""%string -> isfile converted = true ->
          send_audio_message post isfile convert_to_opus_ogg_temp recipient
            media_path
          = send_file post isfile recipient converted)
  end.
Proof.
  intros Hr Hp Hf Hogg. unfold send_audio_message, send_file.
  apply truthy_true_iff in Hr, Hp. rewrite Hr, Hp, Hf, Hogg. simpl.
  destruct (convert_to_opus_ogg_temp media_path) as [converted | e];
    [| reflexivity].
  split; [reflexivity |].
  intros Hc Hfc. apply truthy_true_iff in Hc. rewrite Hc, Hfc. reflexivity.
Qed.

(** X30. [download_media] posts exactly one request, to the [/download]
    endpoint, and returns something other than [None] only when the bridge
    answered with status 200 and a decoded object whose "success" is true;
    what it then returns is the "path" of that object. *)
Theorem download_media_outcome (message_id chat_jid : string) :
  fst (download_media post message_id chat_jid)
  = [ {| url := "http://localhost:8080/api/download";
         payload := [("message_id", message_id);
                     ("chat_jid", chat_jid)]%string |} ]
  /\ (snd (download_media post message_id chat_jid) <> PyNone ->
      exists text fields,
        post {| url := "http://localhost:8080/api/download";
                payload := [("message_id", message_id);
                            ("chat_jid", chat_jid)]%string |}
        = Response 200 text (Decoded (Dict fields))
        /\ py_truthy (dict_get fields "success" (PyBool false)) = true
        /\ fields "path"%string
           = Some (snd (download_media post message_id chat_jid))).
Proof.
  split; [reflexivity |].
  unfold download_media. simpl.
  destruct (post _) as [e | e | status_code text json]; simpl;
    try congruence.
  destruct json as [[fields | e] | e | | e]; simpl; try congruence.
  destruct (Z.eqb_spec status_code 200) as [-> | Hne]; simpl;
    [| congruence].
  destruct (py_truthy (dict_get fields "success" (PyBool false))) eqn:Hs;
    [| congruence].
  intros Hpath. exists text, fields.
  split; [reflexivity |]. split; [exact Hs |].
  unfold dict_get in *.
  destruct (fields "path"%string) as [v |]; [reflexivity | congruence].
Qed.

End BridgeFacts.

Lemma send_message_outcome_witness :
  send_message Bridges.down "" "hello"
  = ([], (PyBool false, PyStr "Recipient must be provided")).
Proof. apply (send_message_outcome Bridges.down "" "hello"). reflexivity. Defined.

Lemma send_file_validation_witness :
  fst (send_file Bridges.accepting Bridges.no_file "555" "/tmp/a.jpg") = [].
Proof.
  apply (send_file_validation Bridges.accepting Bridges.no_file "555"
           "/tmp/a.jpg").
  right. right. reflexivity.
Defined.

Lemma send_audio_message_ogg_witness :
  send_audio_message Bridges.accepting Bridges.any_file Bridges.no_ffmpeg
    "555" "/tmp/voice.ogg"
  = send_file Bridges.accepting Bridges.any_file "555" "/tmp/voice.ogg".
Proof. apply send_audio_message_ogg. reflexivity. Defined.

Lemma send_audio_message_converts_witness :
  send_audio_message Bridges.accepting Bridges.any_file Bridges.no_ffmpeg
    "555" "/tmp/voice.mp3"
  = ([],
     (PyBool false,
      PyStr "Error converting file to opus ogg. You likely need to install ffmpeg: ffmpeg not found")).
Proof.
  apply (send_audio_message_converts Bridges.accepting Bridges.any_file
           Bridges.no_ffmpeg "555" "/tmp/voice.mp3").
  - discriminate.
  - discriminate.
  - reflexivity.
  - reflexivity.
Defined.

Lemma download_media_outcome_witness :
  exists text fields,
    Bridges.accepting
      {| url := "http://localhost:8080/api/download";
         payload := [("message_id", "D4"); ("chat_jid", "555@s.whatsapp.net")]%string |}
    = Response 200 text (Decoded (Dict fields))
    /\ fields "path"%string = Some (PyStr "/tmp/photo.jpg").
Proof.
  destruct (download_media_outcome Bridges.accepting "D4" "555@s.whatsapp.net")
    as [_ H].
  destruct H as [text [fields [Hpost [_ Hpath]]]].
  - discriminate.
  - exists text, fields. split; [exact Hpost | exact Hpath].
Defined.
